(** * plot_stft.py: decoding and display of a stored STFT

    A shallow embedding of [plot_stft.py].  The script derives the framing
    parameters from five constants, reads a flat [float32] file, views it
    as a [frames x bins x 2] array, rebuilds the complex spectrogram, takes
    its magnitude and hands a decibel image to the plotting library.

    - Python [int] is [Z]; Python [float] is IEEE-754 binary64 and NumPy
      [float32] is binary32, both as [spec_float] with the operations of
      [SpecFloat] at the matching precision.
    - NumPy arrays are views (base address, offset, shape, strides) over
      buffers held in a store; [reshape], [data[..., k]] and [.T] build
      views, the arithmetic allocates fresh buffers.
    - [np.abs] on finite pairs and [np.log10] are computed by libraries
      whose rounding the script does not fix; they are parameters.
    - Exceptions are the [Raise] results of a small state-and-error monad. *)

From Stdlib Require Import ZArith QArith Qround Qpower Lia List Bool String.
From Stdlib Require Import SpecFloat.
From stdpp Require Import base option list.

Open Scope Z_scope.

(** ** Floating-point formats *)

Module F64.
Definition prec : Z := 53.
Definition emax : Z := 1024.
Definition t := spec_float.
Definition mul : t -> t -> t := SFmul prec emax.
Definition div : t -> t -> t := SFdiv prec emax.
(** The float nearest to [m * 2^e]: how a literal is read. *)
Definition of_Z2 (m e : Z) : t := binary_normalize prec emax m e false.
Definition of_Z (m : Z) : t := of_Z2 m 0.
End F64.

Module F32.
Definition prec : Z := 24.
Definition emax : Z := 128.
Definition t := spec_float.
Definition add : t -> t -> t := SFadd prec emax.
Definition sub : t -> t -> t := SFsub prec emax.
Definition mul : t -> t -> t := SFmul prec emax.
Definition valid (x : t) : bool := valid_binary prec emax x.
Definition of_Z2 (m e : Z) : t := binary_normalize prec emax m e false.
Definition zero : t := S754_zero false.
Definition one : t := of_Z2 1 0.
End F32.

Definition is_finite (x : spec_float) : bool :=
  match x with
  | S754_zero _ | S754_finite _ _ _ => true
  | S754_infinity _ | S754_nan => false
  end.

Definition is_nan (x : spec_float) : bool :=
  match x with S754_nan => true | _ => false end.

(** The rational a float stands for (0 for infinities and NaN). *)
Definition SF2Q (x : spec_float) : Q :=
  match x with
  | S754_finite s m e => (inject_Z (cond_Zopp s (Zpos m)) * Qpower 2 e)%Q
  | _ => 0%Q
  end.

(** ** Exceptions *)

Inductive exn :=
| ValueError_nan_to_int      (* int(float('nan')) *)
| OverflowError_inf_to_int   (* int(float('inf')) *)
| ZeroDivisionError          (* n // 0 *)
| ShapeMismatch              (* cannot reshape array of size n into shape s *)
| OneUnknownDimension        (* can only specify one unknown dimension *)
| IndexError                 (* index out of bounds for the axis *)
| BroadcastError.            (* operands could not be broadcast together *)

Inductive result (A : Type) :=
| Ok (a : A)
| Raise (e : exn).
Arguments Ok {A} a.
Arguments Raise {A} e.

Definition rbind {A B} (r : result A) (k : A -> result B) : result B :=
  match r with Ok a => k a | Raise e => Raise e end.

(** ** Python integer and float primitives *)

(** [int(x)] on a float: truncation toward zero; NaN and the infinities
    raise. *)
Definition py_int (x : F64.t) : result Z :=
  match x with
  | S754_nan => Raise ValueError_nan_to_int
  | S754_infinity _ => Raise OverflowError_inf_to_int
  | S754_zero _ => Ok 0
  | S754_finite s m e =>
      Ok (cond_Zopp s (match e with
                       | Zneg p => Z.shiftr (Zpos m) (Zpos p)
                       | _ => Z.shiftl (Zpos m) e
                       end))
  end.

(** [a // b] on integers: floor division, [ZeroDivisionError] on [b = 0]. *)
Definition py_floordiv (a b : Z) : result Z :=
  if Z.eqb b 0 then Raise ZeroDivisionError else Ok (a / b).

(** ** Parameters (lines 4-12) *)

Record config := {
  sample_rate : F64.t;
  duration : F64.t;
  hop : Z;
  win : Z;
  fftsize : Z
}.

Definition default_config : config := {|
  sample_rate := F64.of_Z 8000;
  duration := F64.of_Z 1;
  hop := 128;
  win := 256;
  fftsize := 256
|}.

(** [signal_len = int(sample_rate * duration)] *)
Definition signal_len (c : config) : result Z :=
  py_int (F64.mul (sample_rate c) (duration c)).

(** [outsize = (signal_len - win) // hop + 1] *)
Definition outsize (c : config) : result Z :=
  rbind (signal_len c) (fun n =>
  rbind (py_floordiv (n - win c) (hop c)) (fun q =>
  Ok (q + 1))).

(** [fftsize // 2] *)
Definition bin_count (c : config) : Z := fftsize c / 2.

(** What the specification asks of [signal_length]: Python's [round],
    nearest integer with ties to even, of the product. *)
Definition round_half_even (q : Q) : Z :=
  let f := Qfloor q in
  match Qcompare (q - inject_Z f) (1 # 2) with
  | Lt => f
  | Gt => f + 1
  | Eq => if Z.even f then f else f + 1
  end.

(** Truncation toward zero of a rational. *)
Definition Qtrunc (q : Q) : Z :=
  if Qle_bool 0 q then Qfloor q else Qceiling q.


(** ** Scalars: float32 and complex64 *)

Record complex64 := Complex { re : F32.t; im : F32.t }.

Module C64.
(** A real operand promoted to complex: imaginary part [+0]. *)
Definition of_real (x : F32.t) : complex64 := Complex x F32.zero.
(** The Python literal [1j]. *)
Definition j : complex64 := Complex F32.zero F32.one.
(** NumPy's complex loops: [(ar + br, ai + bi)] and
    [(ar*br - ai*bi, ar*bi + ai*br)]. *)
Definition add (a b : complex64) : complex64 :=
  Complex (F32.add (re a) (re b)) (F32.add (im a) (im b)).
Definition mul (a b : complex64) : complex64 :=
  Complex (F32.sub (F32.mul (re a) (re b)) (F32.mul (im a) (im b)))
          (F32.add (F32.mul (re a) (im b)) (F32.mul (im a) (re b))).
End C64.

#[global] Instance spec_float_inhabited : Inhabited spec_float :=
  populate (S754_zero false).
#[global] Instance complex64_inhabited : Inhabited complex64 :=
  populate (Complex (S754_zero false) (S754_zero false)).

(** ** Store and views

    A buffer is the flat memory of one array.  The store keeps the
    [float32] buffers and the [complex64] buffers apart; an address is the
    position of a buffer in its list, and allocation appends. *)

Record store := Store {
  floats : list (list F32.t);
  complexes : list (list complex64)
}.

Definition empty_store : store := Store [] [].

(** An [ndarray]: which buffer, where it starts, its shape and the step
    (in elements) of each axis. *)
Record view := View {
  base : nat;
  offset : nat;
  shape : list nat;
  strides : list nat
}.

Definition size_of (sh : list nat) : nat := fold_right Nat.mul 1%nat sh.

(** Strides of a C-ordered (row-major) array of the given shape. *)
Fixpoint c_strides (sh : list nat) : list nat :=
  match sh with
  | [] => []
  | _ :: rest => size_of rest :: c_strides rest
  end.

(** The multi-index of the [k]-th element in row-major order. *)
Fixpoint unravel (sh : list nat) (k : nat) : list nat :=
  match sh with
  | [] => []
  | _ :: rest => (k / size_of rest)%nat :: unravel rest (k mod size_of rest)%nat
  end.

Fixpoint dot (st idx : list nat) : nat :=
  match st, idx with
  | s :: st', i :: idx' => (s * i + dot st' idx')%nat
  | _, _ => 0%nat
  end.

Definition position (v : view) (idx : list nat) : nat :=
  (offset v + dot (strides v) idx)%nat.

Definition getf (s : store) (v : view) (idx : list nat) : F32.t :=
  (floats s !!! base v) !!! position v idx.

Definition getc (s : store) (v : view) (idx : list nat) : complex64 :=
  (complexes s !!! base v) !!! position v idx.

(** The elements of a view in row-major order. *)
Definition elems {A} `{Inhabited A} (b : list A) (v : view) : list A :=
  map (fun k => b !!! position v (unravel (shape v) k))
      (seq 0 (size_of (shape v))).

Definition contiguous (a : nat) (sh : list nat) : view :=
  View a 0 sh (c_strides sh).

(** ** The monad of the script: a store threaded through, or an exception *)

Definition M (A : Type) : Type := store -> result (A * store).

Definition ret {A} (a : A) : M A := fun s => Ok (a, s).
Definition raise {A} (e : exn) : M A := fun _ => Raise e.
Definition bind {A B} (m : M A) (k : A -> M B) : M B :=
  fun s => match m s with
           | Ok (a, s') => k a s'
           | Raise e => Raise e
           end.
Definition lift {A} (r : result A) : M A :=
  fun s => match r with Ok a => Ok (a, s) | Raise e => Raise e end.

Notation "'let*' x ':=' m 'in' k" := (bind m (fun x => k))
  (at level 10, x name, m at level 100, k at level 200).

Definition alloc_f (b : list F32.t) : M nat :=
  fun s => Ok (length (floats s), Store (floats s ++ [b]) (complexes s)).
Definition alloc_c (b : list complex64) : M nat :=
  fun s => Ok (length (complexes s), Store (floats s) (complexes s ++ [b])).

(** ** NumPy operations used by the script *)

(** [np.fromfile(f, dtype=np.float32)]: a fresh one-dimensional array
    holding the floats of the file. *)
Definition fromfile (contents : list F32.t) : M view :=
  let* a := alloc_f contents in
  ret (contiguous a [length contents]).

(** The loop of NumPy's [_fix_unknown_dimension]: a negative entry is the
    unknown dimension, a second one is an error, the others multiply into
    [s_known].  Dimensions are unbounded integers here, while NumPy holds
    each in a signed machine word: it refuses a dimension outside the word
    before this loop is reached, with an error of its own, and reports a
    product that overflows the word as the size mismatch.  The model
    therefore stands for NumPy on dimensions that satisfy [intp] below. *)
Fixpoint scan_dims (dims : list Z) (i : nat) (i_unknown : option nat)
    (s_known : Z) : result (option nat * Z) :=
  match dims with
  | [] => Ok (i_unknown, s_known)
  | d :: rest =>
      if d <? 0 then
        match i_unknown with
        | None => scan_dims rest (S i) (Some i) s_known
        | Some _ => Raise OneUnknownDimension
        end
      else scan_dims rest (S i) i_unknown (s_known * d)
  end.

Definition fix_unknown_dimension (s_original : Z) (dims : list Z)
    : result (list Z) :=
  rbind (scan_dims dims 0 None 1) (fun '(i_unknown, s_known) =>
  match i_unknown with
  | Some i =>
      if (s_known =? 0) || negb (s_original mod s_known =? 0)
      then Raise ShapeMismatch
      else Ok (<[i := s_original / s_known]> dims)
  | None =>
      if s_original =? s_known then Ok dims else Raise ShapeMismatch
  end).

(** The range of a dimension, NumPy's [npy_intp]: a signed word of 64
    bits on the platforms the script is run on. *)
Definition intp (d : Z) : Prop := - 2 ^ 63 <= d < 2 ^ 63.

(** [v.reshape(dims)].  The shape is checked first.  A C-contiguous array,
    as [np.fromfile] returns, is then viewed in place; any other is copied
    into a fresh buffer. *)
Definition reshape (v : view) (dims : list Z) : M view :=
  let* sh := lift (fix_unknown_dimension (Z.of_nat (size_of (shape v))) dims) in
  let sh := map Z.to_nat sh in
  if decide (strides v = c_strides (shape v))
  then ret (View (base v) (offset v) sh (c_strides sh))
  else fun s =>
    (let* a := alloc_f (elems (floats s !!! base v) v) in
     ret (contiguous a sh)) s.

(** [v[..., k]]: index [k] on the last axis, all the others kept. *)
Definition last_axis (v : view) (k : nat) : M view :=
  match last (shape v), last (strides v) with
  | Some d, Some st =>
      if (k <? d)%nat
      then ret (View (base v) (offset v + k * st)
                     (removelast (shape v)) (removelast (strides v)))
      else raise IndexError
  | _, _ => raise IndexError
  end.

(** [v.T]: the axes reversed. *)
Definition transpose (v : view) : view :=
  View (base v) (offset v) (rev (shape v)) (rev (strides v)).

(** Broadcasting, on shapes read from the last axis backwards: equal
    extents match, an extent of 1 or a missing axis stretches. *)
Fixpoint broadcast_rev (a b : list nat) : option (list nat) :=
  match a, b with
  | [], _ => Some b
  | _, [] => Some a
  | x :: a', y :: b' =>
      if (x =? y)%nat then cons x <$> broadcast_rev a' b'
      else if (x =? 1)%nat then cons y <$> broadcast_rev a' b'
      else if (y =? 1)%nat then cons x <$> broadcast_rev a' b'
      else None
  end.

Fixpoint stretch_rev (sh st target : list nat) : list nat :=
  match target with
  | [] => []
  | t :: target' =>
      match sh, st with
      | x :: sh', s :: st' =>
          (if (x =? t)%nat then s else 0%nat) :: stretch_rev sh' st' target'
      | _, _ => 0%nat :: stretch_rev [] [] target'
      end
  end.

Definition broadcast_to (v : view) (target : list nat) : view :=
  View (base v) (offset v) target
       (rev (stretch_rev (rev (shape v)) (rev (strides v)) (rev target))).

Definition broadcast_shapes (a b : list nat) : result (list nat) :=
  match broadcast_rev (rev a) (rev b) with
  | Some r => Ok (rev r)
  | None => Raise BroadcastError
  end.

(** Elementwise loops.  Each reads its operands index by index and writes
    a fresh array, laid out here in C order.  (NumPy lets the result follow
    the memory order of its operands, and on large arrays it may write the
    result of a binary loop over an operand that is a temporary instead of
    allocating; the element at each index is the same.  The number of
    buffers a loop allocates is therefore not part of what is stated
    below.) *)
Definition map_ff (g : F32.t -> F32.t) (v : view) : M view :=
  fun s =>
    (let* a := alloc_f (map g (elems (floats s !!! base v) v)) in
     ret (contiguous a (shape v))) s.

Definition map_fc (g : F32.t -> complex64) (v : view) : M view :=
  fun s =>
    (let* a := alloc_c (map g (elems (floats s !!! base v) v)) in
     ret (contiguous a (shape v))) s.

Definition map_cf (g : complex64 -> F32.t) (v : view) : M view :=
  fun s =>
    (let* a := alloc_f (map g (elems (complexes s !!! base v) v)) in
     ret (contiguous a (shape v))) s.

Definition zip_fc (g : F32.t -> complex64 -> complex64) (v w : view) : M view :=
  let* sh := lift (broadcast_shapes (shape v) (shape w)) in
  fun s =>
    (let* a := alloc_c
         (zip_with g (elems (floats s !!! base v) (broadcast_to v sh))
                     (elems (complexes s !!! base w) (broadcast_to w sh))) in
     ret (contiguous a sh)) s.

(** [c * v] for a Python complex [c] and a [float32] array: the result is
    [complex64], each element promoted with a [+0] imaginary part. *)
Definition complex_times (c : complex64) (v : view) : M view :=
  map_fc (fun x => C64.mul c (C64.of_real x)) v.

(** [v + w] for a [float32] array and a [complex64] array. *)
Definition float_plus_complex (v w : view) : M view :=
  zip_fc (fun x z => C64.add (C64.of_real x) z) v w.

(** ** Decoding (lines 19-20)

    [data = data.reshape((outsize, fftsize // 2, 2))]
    [complex_data = data[..., 0] + 1j * data[..., 1]] *)
Definition decode (data : view) (frame_count bin_count : Z) : M view :=
  let* data := reshape data [frame_count; bin_count; 2] in
  let* re_part := last_axis data 0 in
  let* im_part := last_axis data 1 in
  let* t := complex_times C64.j im_part in
  float_plus_complex re_part t.

(** A two-dimensional array as nested rows. *)
Definition rows {A} (get : list nat -> A) (sh : list nat) : list (list A) :=
  match sh with
  | [n; m] => map (fun i => map (fun k => get [i; k]) (seq 0 m)) (seq 0 n)
  | _ => []
  end.

(** ** Magnitude and decibels (lines 23 and 35) *)

(** [np.abs] on [complex64] is [hypot] of the two components.  Its special
    values are those of C99 F.10.4.3: an infinite component gives [+inf]
    even beside a NaN, a NaN otherwise gives NaN, and two zeros give [+0].
    On every other pair, finite and not both zero, the value is the square
    root of the sum of the squares as the loop of the library rounds it,
    which differs between builds and is not always the nearest float.
    That part is a parameter here, [hk], of which only the range is fixed:
    a positive float [m * 2^e], or an overflow to [+inf]. *)
Definition hypot_kernel : Type := F32.t -> F32.t -> option (positive * Z).

Definition hypotf (hk : hypot_kernel) (x y : F32.t) : F32.t :=
  match x, y with
  | S754_infinity _, _ | _, S754_infinity _ => S754_infinity false
  | S754_nan, _ | _, S754_nan => S754_nan
  | S754_zero _, S754_zero _ => S754_zero false
  | _, _ =>
      match hk x y with
      | Some (m, e) => S754_finite false m e
      | None => S754_infinity false
      end
  end.

Definition np_abs (hk : hypot_kernel) (z : complex64) : F32.t :=
  hypotf hk (re z) (im z).

(** The nearest float to the square root of the sum of the squares, formed
    exactly: one function in the range of [hypot_kernel], with which the
    script can be run on examples. *)
Definition nearest_hypot (x y : F32.t) : F32.t :=
  match x, y with
  | S754_finite _ mx ex, S754_finite _ my ey =>
      let e := Z.min (2 * ex) (2 * ey) in
      let m := (fst (shl_align (mx * mx) (2 * ex) e) +
                fst (shl_align (my * my) (2 * ey) e))%positive in
      SFsqrt F32.prec F32.emax (S754_finite false m e)
  | S754_zero _, _ => SFabs y
  | _, _ => SFabs x
  end.

Definition hypot_rounded : hypot_kernel := fun x y =>
  match nearest_hypot x y with
  | S754_finite _ m e => Some (m, e)
  | _ => None
  end.

(** A Python float or int meeting a [float32] array is converted to
    [float32]. *)
Definition f32_of_f64 (x : F64.t) : F32.t :=
  match x with
  | S754_finite s m e => binary_round F32.prec F32.emax s m e
  | _ => x
  end.

(** The literal [1e-6]: the double nearest to 10^-6. *)
Definition lit_1e_6 : F64.t := F64.div (F64.of_Z 1) (F64.of_Z 1000000).
Definition eps32 : F32.t := f32_of_f64 lit_1e_6.
Definition twenty32 : F32.t := F32.of_Z2 20 0.

(** [np.abs(complex_data)] *)
Definition magnitude (hk : hypot_kernel) (z : view) : M view :=
  map_cf (np_abs hk) z.

(** ** What the plotting library is handed *)

Inductive pynum :=
| PyInt (n : Z)
| PyFloat (x : F64.t).

Record imshow_args := {
  im_data : list (list F32.t);
  im_origin : string;
  im_aspect : string;
  im_extent : list pynum;
  im_cmap : string
}.

Inductive plot_cmd :=
| Figure (w h : Z)
| Plot (xs ys : list F64.t)
| Title (s : string)
| XLabel (s : string)
| YLabel (s : string)
| Grid (b : bool)
| Imshow (a : imshow_args)
| Colorbar (label : string)
| TightLayout
| Savefig (name : string).

(** Matplotlib's "perceptually uniform sequential" colour maps. *)
Definition perceptually_uniform : list string :=
  ["viridis"; "plasma"; "inferno"; "magma"; "cividis"]%string.

(** Lines 25-43: the calls made on [matplotlib.pyplot], in order. *)
Definition plot_commands (c : config) (time_data : list (F64.t * F64.t))
    (img : list (list F32.t)) : list plot_cmd :=
  [ Figure 12 4;
    Plot (map fst time_data) (map snd time_data);
    Title "Input Signal";
    XLabel "Time (s)";
    YLabel "Amplitude";
    Grid true;
    Figure 12 6;
    Imshow {| im_data := img;
              im_origin := "lower";
              im_aspect := "auto";
              im_extent := [PyInt 0; PyFloat (duration c); PyInt 0;
                            PyFloat (F64.div (sample_rate c) (F64.of_Z 2))];
              im_cmap := "magma" |};
    Colorbar "Magnitude (dB)";
    Title "STFT Magnitude Spectrogram";
    XLabel "Time (s)";
    YLabel "Frequency (Hz)";
    TightLayout;
    Savefig "stft-plot.png" ].

Section Script.

Variable hk : hypot_kernel.

(** [np.log10] on [float32] comes from the platform's math library; its
    values are not fixed by the script and it is a parameter here. *)
Variable log10f : F32.t -> F32.t.

(** [20 * np.log10(m + 1e-6)] *)
Definition decibels (m : view) : M view :=
  let* t := map_ff (fun x => F32.add x eps32) m in
  let* t := map_ff log10f t in
  map_ff (fun x => F32.mul twenty32 x) t.

Definition db_of (mag : F32.t) : F32.t :=
  F32.mul twenty32 (log10f (F32.add mag eps32)).

(** The script on a table that line 27 accepts.  [time_data] holds the two
    columns that the subscripts [time_data[:, 0]] and [time_data[:, 1]]
    take from the table [np.loadtxt] returns, one (time, amplitude) pair
    per row; [contents] holds the floats of [stft_out.bin].  A table that
    line 27 refuses, with fewer than two rows or columns, has no such
    pairs: [script] below starts from the table itself and raises there. *)
Definition main (c : config) (time_data : list (F64.t * F64.t))
    (contents : list F32.t) : M (list plot_cmd) :=
  let* outsize := lift (outsize c) in
  let* data := fromfile contents in
  let* complex_data := decode data outsize (bin_count c) in
  let* mag := magnitude hk complex_data in
  let* img := decibels (transpose mag) in
  fun s => Ok (plot_commands c time_data (rows (getf s img) (shape img)), s).

End Script.

(** The contract asked of [log10f] where finiteness matters: on a positive
    finite argument it returns a finite float below 2^7 in magnitude (the
    decimal logarithm of a binary32 number lies within -45 and 39). *)
Definition pos_finite (x : F32.t) : bool :=
  match x with S754_finite false _ _ => true | _ => false end.

Definition below_2_7 (r : F32.t) : bool :=
  match r with
  | S754_zero _ => true
  | S754_finite _ m e =>
      (Z.pos (digits2_pos m) <=? 24) && (Z.pos (digits2_pos m) + e <=? 7)
  | _ => false
  end.

Definition is_zero (x : spec_float) : bool :=
  match x with S754_zero _ => true | _ => false end.

(** ** Vocabulary of the statements *)

(** [data] is the one-dimensional array that [np.fromfile] made of [buf]. *)
Definition flat_array (s : store) (data : view) (buf : list F32.t) : Prop :=
  floats s !! base data = Some buf /\ offset data = 0%nat /\
  shape data = [length buf] /\ strides data = [1%nat].

(** Element [k], in row-major order, of [1j * data[..., 1]] and of
    [data[..., 0] + 1j * data[..., 1]]. *)
Definition product_at (buf : list F32.t) (k : nat) : complex64 :=
  C64.mul C64.j (C64.of_real (buf !!! (1 + 2 * k)%nat)).

Definition decoded_at (buf : list F32.t) (k : nat) : complex64 :=
  C64.add (C64.of_real (buf !!! (0 + 2 * k)%nat)) (product_at buf k).

Definition sign_bit (x : spec_float) : bool :=
  match x with
  | S754_zero s | S754_infinity s | S754_finite s _ _ => s
  | S754_nan => false
  end.

Definition is_neg_zero (x : spec_float) : bool :=
  match x with S754_zero true => true | _ => false end.

(** What comes back for the pair [(x, y)]: the same floats, except that a
    zero may lose its sign. *)
Definition rebuilt (z : complex64) : complex64 :=
  Complex (if is_neg_zero (re z) && negb (sign_bit (im z))
           then F32.zero else re z)
          (if is_neg_zero (im z) then F32.zero else im z).

(** A sampling rate of 8000.75 Hz over one second. *)
Definition config_8000_75 : config := {|
  sample_rate := F64.of_Z2 32003 (-2);
  duration := F64.of_Z 1;
  hop := 128;
  win := 256;
  fftsize := 256
|}.


(** Lines 19-23: the complex spectrogram and its magnitude. *)
Definition spectrogram (hk : hypot_kernel) (data : view)
    (frame_count bin_count : Z) : M (view * view) :=
  let* complex_data := decode data frame_count bin_count in
  let* mag := magnitude hk complex_data in
  ret (complex_data, mag).

(** Modelled from the spec: the encoder is the external producer of
    [stft_out.bin] and is not part of the script.  Section 6 of the
    specification gives its layout: the matrix flattened row by row
    ([frame][bin], row-major) with each element written as the pair
    (real, imaginary). *)
Definition encode (m : list (list complex64)) : list F32.t :=
  flat_map (fun c => [re c; im c]) (concat m).

(** A component that is a finite binary32 number. *)
Definition finite32 (x : F32.t) : Prop :=
  is_finite x = true /\ F32.valid x = true.

(** A two-sample signal framed one sample at a time: two frames of one
    bin. *)
Definition config_tiny : config := {|
  sample_rate := F64.of_Z 2;
  duration := F64.of_Z 1;
  hop := 1;
  win := 1;
  fftsize := 2
|}.

(** The constant -6.0, an instance of the contract on [log10f]. *)
Definition minus_six (_ : F32.t) : F32.t := F32.of_Z2 (-6) 0.

(** Equal as numbers, component by component ([-0.0 == 0.0]). *)
Definition same_value (c d : complex64) : Prop :=
  SFeqb (re c) (re d) = true /\ SFeqb (im c) (im d) = true.

(** [s'] holds every buffer of [s], unchanged and at the same address. *)
Definition extends (s s' : store) : Prop :=
  floats s `prefix_of` floats s' /\ complexes s `prefix_of` complexes s'.

(** A computation that only ever adds buffers. *)
Definition allocating {A} (m : M A) : Prop :=
  forall s a s', m s = Ok (a, s') -> extends s s'.

(** Configurations whose parameters stop the script: an infinite rate over
    no time, a product beyond the largest double, and a zero hop. *)
Definition config_nan : config := {|
  sample_rate := S754_infinity false;
  duration := S754_zero false;
  hop := 128; win := 256; fftsize := 256
|}.

Definition config_overflow : config := {|
  sample_rate := F64.of_Z2 1 1023;
  duration := F64.of_Z 4;
  hop := 128; win := 256; fftsize := 256
|}.

Definition config_zero_hop : config := {|
  sample_rate := F64.of_Z 8000;
  duration := F64.of_Z 1;
  hop := 0; win := 256; fftsize := 256
|}.

(** A float that [x + 1j*y] returns bit for bit: finite and not [-0.0]. *)
Definition plain32 (x : F32.t) : Prop :=
  finite32 x /\ is_neg_zero x = false.

(** ** The signal table (lines 15 and 27)

    [np.loadtxt] parses the text file into rows of floats; the parsing
    itself is outside this model, which starts from the rows, all of one
    length.  [loadtxt] squeezes away every axis of extent one, so a table
    with fewer than two rows or fewer than two columns comes back with
    fewer than two dimensions, and [time_data[:, 0]] then raises
    [IndexError].  Otherwise the two subscripts are the first two
    columns. *)
Definition time_columns (table : list (list F64.t))
    : result (list F64.t * list F64.t) :=
  if (2 <=? length table)%nat && (2 <=? length (hd [] table))%nat
  then Ok (map (fun row => row !!! 0%nat) table,
           map (fun row => row !!! 1%nat) table)
  else Raise IndexError.

Section ScriptWithTable.

Variable hk : hypot_kernel.
Variable log10f : F32.t -> F32.t.

(** The script from the parsed table on.  The subscripts of line 27 come
    after the spectrogram of lines 18-23 and before the image of line 35;
    the figure opened at line 26 is lost with the exception and nothing is
    saved. *)
Definition script (c : config) (table : list (list F64.t))
    (contents : list F32.t) : M (list plot_cmd) :=
  let* outsize := lift (outsize c) in
  let* data := fromfile contents in
  let* complex_data := decode data outsize (bin_count c) in
  let* mag := magnitude hk complex_data in
  let* cols := lift (time_columns table) in
  let* img := decibels log10f (transpose mag) in
  fun s =>
    Ok (plot_commands c (combine (fst cols) (snd cols))
                      (rows (getf s img) (shape img)), s).

End ScriptWithTable.

(** An infinite float. *)
Definition is_inf (x : spec_float) : bool :=
  match x with S754_infinity _ => true | _ => false end.

(** * Properties *)

(** ** Row-major index arithmetic *)

Lemma unravel2 (n m k : nat) :
  (0 < m)%nat -> unravel [n; m] k = [(k / m)%nat; (k mod m)%nat].
Proof.
  intros Hm. cbn [unravel size_of fold_right].
  rewrite !Nat.mul_1_r, Nat.div_1_r. reflexivity.
Qed.

Lemma unravel2_at (n m f b : nat) :
  (b < m)%nat -> unravel [n; m] (f * m + b) = [f; b].
Proof.
  intros Hb. rewrite unravel2 by lia.
  assert ((f * m + b) / m = f)%nat as ->
    by (rewrite Nat.div_add_l, Nat.div_small by lia; lia).
  assert ((f * m + b) mod m = b)%nat as ->
    by (rewrite (Nat.add_comm (f * m)), Nat.Div0.mod_add; apply Nat.mod_small; lia).
  reflexivity.
Qed.

Lemma flat_index_lt (n m f b : nat) :
  (f < n)%nat -> (b < m)%nat -> (f * m + b < n * m)%nat.
Proof. nia. Qed.

Lemma size_pos_of_index (n m k : nat) : (k < size_of [n; m])%nat -> (0 < m)%nat.
Proof. simpl. destruct m; lia. Qed.

Lemma elems_by_position {A} `{Inhabited A} (b : list A) (v : view)
    (h : nat -> nat) :
  (forall k, (k < size_of (shape v))%nat ->
             position v (unravel (shape v) k) = h k) ->
  elems b v = map (fun k => b !!! h k) (seq 0 (size_of (shape v))).
Proof.
  intros Hpos. unfold elems. apply map_ext_in.
  intros k Hk. apply in_seq in Hk. rewrite Hpos by lia. reflexivity.
Qed.

Lemma map_seq_lookup_total {A} `{Inhabited A} (g : nat -> A) (n k : nat) :
  (k < n)%nat -> map g (seq 0 n) !!! k = g k.
Proof.
  intros Hk. apply list_lookup_total_correct.
  rewrite list_lookup_fmap, lookup_seq_lt by lia. reflexivity.
Qed.

Lemma zip_with_map_seq {A B C} (g : A -> B -> C) (p : nat -> A) (q : nat -> B)
    (l : list nat) :
  zip_with g (map p l) (map q l) = map (fun k => g (p k) (q k)) l.
Proof. induction l as [|x l IH]; simpl; [reflexivity | now rewrite IH]. Qed.

(** A strided two-dimensional view whose row step is [m] times its column
    step reads every [c]-th element from [o] on. *)
Lemma elems_strided {A} `{Inhabited A} (buf : list A) (a o n m c : nat) :
  elems buf (View a o [n; m] [(m * c)%nat; c]) =
  map (fun k => buf !!! (o + c * k)%nat) (seq 0 (n * m)).
Proof.
  rewrite (elems_by_position _ _ (fun k => (o + c * k)%nat)).
  - simpl. now rewrite Nat.mul_1_r.
  - intros k Hk. pose proof (size_pos_of_index _ _ _ Hk) as Hm.
    cbn [shape]. rewrite unravel2 by assumption.
    unfold position; cbn [offset strides dot].
    pose proof (Nat.div_mod_eq k m). nia.
Qed.

(** ** Reshape *)

Lemma fix_unknown_dimension_known (n fc bc : Z) :
  0 <= fc -> 0 <= bc ->
  fix_unknown_dimension n [fc; bc; 2] =
  if n =? fc * bc * 2 then Ok [fc; bc; 2] else Raise ShapeMismatch.
Proof.
  intros Hf Hb. unfold fix_unknown_dimension. cbn [scan_dims].
  destruct (Z.ltb_spec fc 0); [lia|]. destruct (Z.ltb_spec bc 0); [lia|].
  cbn [Z.ltb Z.compare rbind]. rewrite Z.mul_1_l. reflexivity.
Qed.


(** ** Broadcasting of equal shapes *)

Lemma broadcast_rev_diag (a : list nat) : broadcast_rev a a = Some a.
Proof.
  induction a as [|x a IH]; [reflexivity|].
  cbn [broadcast_rev]. rewrite Nat.eqb_refl, IH. reflexivity.
Qed.

Lemma stretch_rev_diag (sh st : list nat) :
  length st = length sh -> stretch_rev sh st sh = st.
Proof.
  revert st. induction sh as [|x sh IH]; intros [|s st] Hlen;
    try discriminate; [reflexivity|].
  cbn [stretch_rev]. rewrite Nat.eqb_refl, IH by (simpl in Hlen; lia).
  reflexivity.
Qed.

Lemma broadcast_shapes_diag (a : list nat) : broadcast_shapes a a = Ok a.
Proof.
  unfold broadcast_shapes. now rewrite broadcast_rev_diag, rev_involutive.
Qed.

Lemma broadcast_to_diag (v : view) :
  length (strides v) = length (shape v) -> broadcast_to v (shape v) = v.
Proof.
  destruct v as [a o sh st]; cbn [shape strides]; intros Hlen.
  unfold broadcast_to; cbn [base offset shape strides].
  rewrite stretch_rev_diag, rev_involutive by (rewrite !length_rev; exact Hlen).
  reflexivity.
Qed.

(** ** What [decode] computes *)

Lemma last_axis_3d (a o n m d s0 s1 s2 k : nat) (s : store) :
  (k < d)%nat ->
  last_axis (View a o [n; m; d] [s0; s1; s2]) k s =
  Ok (View a (o + k * s2) [n; m] [s0; s1], s).
Proof.
  intros Hk. unfold last_axis. cbn [shape strides last base offset removelast].
  destruct (Nat.ltb_spec k d); [reflexivity | lia].
Qed.

Lemma map_fc_run (g : F32.t -> complex64) (v : view) (s : store)
    (buf : list F32.t) :
  floats s !! base v = Some buf ->
  map_fc g v s =
  Ok (contiguous (length (complexes s)) (shape v),
      Store (floats s) (complexes s ++ [map g (elems buf v)])).
Proof.
  intros Hbuf. unfold map_fc, bind, alloc_c, ret.
  rewrite (list_lookup_total_correct _ _ _ Hbuf). reflexivity.
Qed.

Lemma zip_fc_run (g : F32.t -> complex64 -> complex64) (v w : view)
    (s : store) (fb : list F32.t) (cb : list complex64) :
  shape w = shape v ->
  length (strides v) = length (shape v) ->
  length (strides w) = length (shape w) ->
  floats s !! base v = Some fb ->
  complexes s !! base w = Some cb ->
  zip_fc g v w s =
  Ok (contiguous (length (complexes s)) (shape v),
      Store (floats s)
            (complexes s ++ [zip_with g (elems fb v) (elems cb w)])).
Proof.
  intros Hsh Hv Hw Hfb Hcb. unfold zip_fc, bind at 1, lift.
  rewrite Hsh, broadcast_shapes_diag.
  rewrite (broadcast_to_diag v Hv).
  rewrite <- Hsh, (broadcast_to_diag w Hw).
  unfold bind, alloc_c, ret.
  rewrite (list_lookup_total_correct _ _ _ Hfb).
  rewrite (list_lookup_total_correct _ _ _ Hcb). rewrite Hsh. reflexivity.
Qed.

Lemma elems_contiguous2 {A} `{Inhabited A} (buf : list A) (a n m : nat) :
  elems buf (contiguous a [n; m]) = map (fun k => buf !!! k) (seq 0 (n * m)).
Proof.
  unfold contiguous. cbn [c_strides size_of fold_right].
  rewrite (elems_strided buf a 0 n m 1).
  apply map_ext. intros k. f_equal. lia.
Qed.

Lemma decode_raises (s : store) (data : view) (buf : list F32.t)
    (fc bc : Z) (e : exn) :
  flat_array s data buf ->
  fix_unknown_dimension (Z.of_nat (length buf)) [fc; bc; 2] = Raise e ->
  decode data fc bc s = Raise e.
Proof.
  intros (Hbuf & Hoff & Hsh & Hst) Hfix.
  unfold decode, bind, reshape, lift. rewrite Hsh.
  cbn [size_of fold_right]. rewrite Nat.mul_1_r, Hfix. reflexivity.
Qed.

Lemma decode_run (s : store) (data : view) (buf : list F32.t)
    (fc bc F B : Z) :
  flat_array s data buf ->
  fix_unknown_dimension (Z.of_nat (length buf)) [fc; bc; 2] = Ok [F; B; 2] ->
  let n := (Z.to_nat F * Z.to_nat B)%nat in
  decode data fc bc s =
  Ok (contiguous (S (length (complexes s))) [Z.to_nat F; Z.to_nat B],
      Store (floats s)
            (complexes s ++ [map (product_at buf) (seq 0 n)]
                         ++ [map (decoded_at buf) (seq 0 n)])).
Proof.
  intros (Hbuf & Hoff & Hsh & Hst) Hfix n.
  unfold decode, bind at 1, reshape, lift, bind at 1. rewrite Hsh.
  cbn [size_of fold_right]. rewrite Nat.mul_1_r, Hfix.
  rewrite Hst. cbn [c_strides size_of fold_right].
  destruct (decide ([1%nat] = [1%nat])) as [_|]; [|congruence].
  unfold ret at 1. cbn [map c_strides size_of fold_right].
  change (Z.to_nat 2) with 2%nat. change (2 * 1)%nat with 2%nat.
  rewrite Hoff.
  unfold bind at 1. rewrite last_axis_3d by lia.
  unfold bind at 1. rewrite last_axis_3d by lia.
  unfold bind at 1, complex_times.
  erewrite map_fc_run by (cbn [base]; exact Hbuf).
  unfold float_plus_complex.
  erewrite zip_fc_run; cycle 1.
  - reflexivity.
  - reflexivity.
  - reflexivity.
  - cbn [base floats]. exact Hbuf.
  - cbn [base complexes contiguous]. apply list_lookup_middle. reflexivity.
  - cbn [shape floats complexes]. rewrite length_app, Nat.add_1_r.
    rewrite <- app_assoc. do 4 f_equal.
    rewrite elems_contiguous2.
    rewrite (elems_strided buf _ (0 + 0 * 1) _ _ 2).
    rewrite (elems_strided buf _ (0 + 1 * 1) _ _ 2).
    fold n. rewrite !map_map.
    rewrite zip_with_map_seq.
    cbn [app]. do 2 f_equal.
    apply map_ext_in. intros k Hk. apply in_seq in Hk.
      rewrite map_seq_lookup_total by lia. reflexivity.
Qed.

Lemma mul_one_l_finite (s : bool) (m : positive) (e : Z) :
  bounded 24 128 m e = true ->
  F32.mul F32.one (S754_finite s m e) = S754_finite s m e.
Proof.
  intros Hb. apply andb_prop in Hb as [Hcan Hle].
  unfold canonical_mantissa in Hcan. apply Z.eqb_eq in Hcan.
  apply Z.leb_le in Hle.
  unfold F32.mul, F32.prec, F32.emax.
  change F32.one with (S754_finite false 8388608 (-23)).
  cbn [SFmul xorb].
  pose (m' := Pos.iter xO m 23).
  change (8388608 * m)%positive with m'.
  assert (Hd : Z.pos (digits2_pos m') = Z.pos (digits2_pos m) + 23).
  { subst m'. cbn [Pos.iter digits2_pos]. lia. }
  unfold binary_round_aux, shr_fexp. cbn [shr_record_of_loc Zdigits2].
  rewrite Hd.
  replace (Z.pos (digits2_pos m) + 23 + (-23 + e)) with (Z.pos (digits2_pos m) + e) by lia.
  rewrite Hcan. replace (e - (-23 + e)) with 23 by lia.
  cbn [shr]. subst m'. cbn [Pos.iter SpecFloat.iter_pos shr_1 orb].
  cbn [shr_m loc_of_shr_record round_nearest_even Zdigits2].
  replace (-23 + e + 23) with e by lia.
  rewrite Hcan, Z.sub_diag. cbn [shr shr_m].
  destruct (Z.leb_spec e (128 - 24)); [reflexivity | lia].
Qed.

Lemma mul_one_l (y : F32.t) :
  F32.valid y = true -> F32.mul F32.one y = y.
Proof.
  destruct y as [s|s| |s m e]; intros Hv; try reflexivity.
  apply mul_one_l_finite. exact Hv.
Qed.

(** ** The arithmetic of [x + 1j * y] on float32 *)

Lemma rebuild_finite (x y : F32.t) :
  is_finite x = true -> is_finite y = true -> F32.valid y = true ->
  C64.add (C64.of_real x) (C64.mul C64.j (C64.of_real y)) =
  rebuilt (Complex x y).
Proof.
  intros Hx Hy Hv. unfold C64.add, C64.mul, C64.of_real, C64.j, rebuilt.
  cbn [re im]. rewrite (mul_one_l y Hv).
  destruct y as [sy|sy| |sy my ey]; try discriminate;
    destruct x as [sx|sx| |sx mx ex]; try discriminate;
    try destruct sx; try destruct sy; reflexivity.
Qed.

Lemma SFeqb_refl_finite (x : spec_float) :
  is_finite x = true -> SFeqb x x = true.
Proof.
  destruct x as [s|s| |s m e]; try discriminate; intros _; [reflexivity|].
  unfold SFeqb, SFcompare. rewrite Z.compare_refl.
  assert (Pos.compare_cont Eq m m = Eq) as -> by apply Pos.compare_refl.
  destruct s; reflexivity.
Qed.

Lemma rebuilt_eqb (x y : F32.t) :
  is_finite x = true -> is_finite y = true ->
  SFeqb (re (rebuilt (Complex x y))) x = true /\
  SFeqb (im (rebuilt (Complex x y))) y = true.
Proof.
  intros Hx Hy. unfold rebuilt. cbn [re im]. split.
  - destruct (is_neg_zero x && negb (sign_bit y)) eqn:E.
    + destruct x as [[]|?| |? ? ?]; try discriminate. reflexivity.
    + now apply SFeqb_refl_finite.
  - destruct (is_neg_zero y) eqn:E.
    + destruct y as [[]|?| |? ? ?]; try discriminate. reflexivity.
    + now apply SFeqb_refl_finite.
Qed.

Lemma rebuilt_exact (z : complex64) :
  is_neg_zero (re z) = false -> is_neg_zero (im z) = false -> rebuilt z = z.
Proof.
  destruct z as [x y]. unfold rebuilt. cbn [re im]. now intros -> ->.
Qed.

(** ** Reading the decoded array *)

Lemma decoded_element (s s' : store) (data z : view) (buf : list F32.t)
    (fc bc F B : Z) (f b : nat) :
  flat_array s data buf ->
  fix_unknown_dimension (Z.of_nat (length buf)) [fc; bc; 2] = Ok [F; B; 2] ->
  decode data fc bc s = Ok (z, s') ->
  (f < Z.to_nat F)%nat -> (b < Z.to_nat B)%nat ->
  shape z = [Z.to_nat F; Z.to_nat B] /\
  getc s' z [f; b] = decoded_at buf (f * Z.to_nat B + b).
Proof.
  intros Hflat Hfix Hrun Hf Hb.
  rewrite (decode_run _ _ _ _ _ _ _ Hflat Hfix) in Hrun.
  injection Hrun as <- <-. split; [reflexivity|].
  unfold getc, position. cbn [contiguous base offset strides complexes].
  cbn [c_strides size_of fold_right dot].
  rewrite (list_lookup_total_correct _ _ (map (decoded_at buf)
             (seq 0 (Z.to_nat F * Z.to_nat B)))).
  2:{ change (complexes s ++ [?a; ?b]) with (complexes s ++ [a] ++ [b]).
      rewrite app_assoc. apply list_lookup_middle.
      rewrite length_app. simpl. lia. }
  replace (0 + (Z.to_nat B * 1 * f + (1 * b + 0)))%nat
    with (f * Z.to_nat B + b)%nat by lia.
  apply map_seq_lookup_total. now apply flat_index_lt.
Qed.

Lemma decoded_at_lookup (buf : list F32.t) (k : nat) :
  (2 * k + 1 < length buf)%nat ->
  exists x y,
    buf !! (2 * k)%nat = Some x /\ buf !! (2 * k + 1)%nat = Some y /\
    decoded_at buf k =
    C64.add (C64.of_real x) (C64.mul C64.j (C64.of_real y)).
Proof.
  intros Hk.
  destruct (lookup_lt_is_Some_2 buf (2 * k)%nat) as [x Hx]; [lia|].
  destruct (lookup_lt_is_Some_2 buf (2 * k + 1)%nat) as [y Hy]; [lia|].
  exists x, y. repeat split; try assumption.
  unfold decoded_at, product_at.
  replace (1 + 2 * k)%nat with (2 * k + 1)%nat by lia.
  rewrite (list_lookup_total_correct _ _ _ Hx).
  rewrite (list_lookup_total_correct _ _ _ Hy). reflexivity.
Qed.

(** ** Decoding a buffer of the expected length *)

(** C1: for [frame_count >= 1], [bin_count >= 1] and a buffer of exactly
    [frame_count * bin_count * 2] floats, [decode] returns a complex array
    of shape [(frame_count, bin_count)] whose element [(f, b)] is
    [buffer[idx] + 1j * buffer[idx + 1]] with [idx = 2 * (f * bin_count + b)]:
    row-major [frame][bin][real, imag] nesting, real component first.  For
    finite components the real and imaginary parts of the element compare
    equal to the two floats of the pair. *)
Theorem decode_layout (s : store) (data : view) (buf : list F32.t)
    (frame_count bin_count : Z) :
  flat_array s data buf ->
  1 <= frame_count -> 1 <= bin_count ->
  Z.of_nat (length buf) = frame_count * bin_count * 2 ->
  exists z s',
    decode data frame_count bin_count s = Ok (z, s') /\
    shape z = [Z.to_nat frame_count; Z.to_nat bin_count] /\
    forall f b : nat,
      (f < Z.to_nat frame_count)%nat -> (b < Z.to_nat bin_count)%nat ->
      let idx := (2 * (f * Z.to_nat bin_count + b))%nat in
      exists x y,
        buf !! idx = Some x /\ buf !! (idx + 1)%nat = Some y /\
        getc s' z [f; b] =
          C64.add (C64.of_real x) (C64.mul C64.j (C64.of_real y)) /\
        (is_finite x = true -> is_finite y = true -> F32.valid y = true ->
         SFeqb (re (getc s' z [f; b])) x = true /\
         SFeqb (im (getc s' z [f; b])) y = true).
Proof.
  intros Hflat Hf Hb Hlen.
  assert (Hfix : fix_unknown_dimension (Z.of_nat (length buf))
                   [frame_count; bin_count; 2] =
                 Ok [frame_count; bin_count; 2]).
  { rewrite fix_unknown_dimension_known by lia.
    now rewrite (proj2 (Z.eqb_eq _ _) Hlen). }
  pose proof (decode_run _ _ _ _ _ _ _ Hflat Hfix) as Hrun.
  cbv zeta in Hrun. eexists _, _. split; [exact Hrun|].
  split; [reflexivity|]. intros f b Hlf Hlb idx.
  destruct (decoded_element _ _ _ _ _ _ _ _ _ f b Hflat Hfix Hrun Hlf Hlb)
    as [_ Hget].
  destruct (decoded_at_lookup buf (f * Z.to_nat bin_count + b))
    as (x & y & Hx & Hy & Hdec).
  { pose proof (flat_index_lt _ _ _ _ Hlf Hlb). nia. }
  exists x, y. subst idx. repeat split; try assumption.
  - now rewrite Hget.
  - rewrite Hget, Hdec, rebuild_finite by assumption.
    now apply rebuilt_eqb.
  - rewrite Hget, Hdec, rebuild_finite by assumption.
    now apply rebuilt_eqb.
Qed.

Lemma decode_layout_witness :
  exists z s',
    decode (contiguous 0 [2%nat]) 1 1
           (Store [[F32.of_Z2 3 0; F32.of_Z2 (-4) 0]] []) = Ok (z, s') /\
    shape z = [Z.to_nat 1; Z.to_nat 1] /\
    forall f b : nat,
      (f < Z.to_nat 1)%nat -> (b < Z.to_nat 1)%nat ->
      let idx := (2 * (f * Z.to_nat 1 + b))%nat in
      exists x y,
        [F32.of_Z2 3 0; F32.of_Z2 (-4) 0] !! idx = Some x /\
        [F32.of_Z2 3 0; F32.of_Z2 (-4) 0] !! (idx + 1)%nat = Some y /\
        getc s' z [f; b] =
          C64.add (C64.of_real x) (C64.mul C64.j (C64.of_real y)) /\
        (is_finite x = true -> is_finite y = true -> F32.valid y = true ->
         SFeqb (re (getc s' z [f; b])) x = true /\
         SFeqb (im (getc s' z [f; b])) y = true).
Proof.
  apply (decode_layout (Store [[F32.of_Z2 3 0; F32.of_Z2 (-4) 0]] [])
           (contiguous 0 [2%nat]) [F32.of_Z2 3 0; F32.of_Z2 (-4) 0] 1 1).
  - repeat split.
  - lia.
  - lia.
  - reflexivity.
Defined.

(** ** Decoding a buffer of any other length *)

(** C2: for [frame_count >= 1] and [bin_count >= 1], a buffer whose length
    is not exactly [frame_count * bin_count * 2] makes [decode] raise the
    reshape error; no array is returned, nothing is truncated or padded. *)
Theorem decode_shape_mismatch (s : store) (data : view) (buf : list F32.t)
    (frame_count bin_count : Z) :
  flat_array s data buf ->
  1 <= frame_count -> 1 <= bin_count ->
  Z.of_nat (length buf) <> frame_count * bin_count * 2 ->
  decode data frame_count bin_count s = Raise ShapeMismatch.
Proof.
  intros Hflat Hf Hb Hlen. apply (decode_raises _ _ _ _ _ _ Hflat).
  rewrite fix_unknown_dimension_known by lia.
  destruct (Z.eqb_spec (Z.of_nat (length buf)) (frame_count * bin_count * 2));
    [contradiction | reflexivity].
Qed.

Lemma decode_shape_mismatch_witness :
  decode (contiguous 0 [3%nat]) 1 1
         (Store [[F32.of_Z2 3 0; F32.of_Z2 (-4) 0; F32.zero]] []) =
  Raise ShapeMismatch.
Proof.
  apply (decode_shape_mismatch
           (Store [[F32.of_Z2 3 0; F32.of_Z2 (-4) 0; F32.zero]] [])
           (contiguous 0 [3%nat])
           [F32.of_Z2 3 0; F32.of_Z2 (-4) 0; F32.zero] 1 1).
  - repeat split.
  - lia.
  - lia.
  - discriminate.
Defined.

(** ** Derived lengths *)

Lemma Qtrunc_comp (p q : Q) : (p == q)%Q -> Qtrunc p = Qtrunc q.
Proof.
  intros Heq. unfold Qtrunc.
  assert (Qle_bool 0 p = Qle_bool 0 q) as -> by now rewrite Heq.
  destruct (Qle_bool 0 q); [apply Qfloor_comp | apply Qceiling_comp]; exact Heq.
Qed.

Lemma Qtrunc_inject_Z (a : Z) : Qtrunc (inject_Z a) = a.
Proof.
  unfold Qtrunc. destruct (Qle_bool 0 (inject_Z a));
    [apply Qfloor_Z | apply Qceiling_Z].
Qed.

Lemma Qtrunc_frac (s : bool) (m d : positive) :
  Qtrunc (cond_Zopp s (Zpos m) # d) = cond_Zopp s (Zpos m / Zpos d).
Proof.
  unfold Qtrunc. destruct s; cbn [cond_Zopp].
  - change (- Z.pos m) with (Z.neg m).
    assert (Qle_bool 0 (Z.neg m # d) = false) as ->.
    { apply not_true_is_false. rewrite Qle_bool_iff. unfold Qle. simpl. lia. }
    unfold Qceiling, Qfloor. cbn [Qopp Qnum Qden Z.opp]. reflexivity.
  - assert (Qle_bool 0 (Z.pos m # d) = true) as ->.
    { rewrite Qle_bool_iff. unfold Qle. simpl. lia. }
    reflexivity.
Qed.

Lemma SF2Q_nonneg_exp (s : bool) (m : positive) (e : Z) :
  0 <= e ->
  (SF2Q (S754_finite s m e) == inject_Z (cond_Zopp s (Zpos m) * 2 ^ e))%Q.
Proof.
  intros He. cbn [SF2Q]. rewrite inject_Z_mult.
  rewrite (Zpower_Qpower 2 e He). reflexivity.
Qed.

Lemma SF2Q_neg_exp (s : bool) (m p : positive) :
  (SF2Q (S754_finite s m (Zneg p)) == cond_Zopp s (Zpos m) # (2 ^ p)%positive)%Q.
Proof.
  cbn [SF2Q]. change (Z.neg p) with (- Z.pos p).
  rewrite Qpower_opp. rewrite <- (Zpower_Qpower 2 (Z.pos p)) by lia.
  unfold Qeq, Qinv, Qmult, inject_Z. cbn [Qnum Qden].
  assert (H2 : 2 ^ Z.pos p = Z.pos (2 ^ p)) by (now rewrite Pos2Z.inj_pow).
  rewrite H2. cbn [Qnum Qden]. lia.
Qed.

(** [int] truncates the float's value toward zero. *)
Lemma py_int_trunc (x : F64.t) (n : Z) :
  py_int x = Ok n -> n = Qtrunc (SF2Q x).
Proof.
  destruct x as [s|s| |s m e]; cbn [py_int]; try discriminate.
  - intros [= <-]. reflexivity.
  - intros [= <-]. destruct e as [|p|p].
    + rewrite (Qtrunc_comp _ _ (SF2Q_nonneg_exp s m 0 ltac:(lia))).
      rewrite Qtrunc_inject_Z. rewrite Z.shiftl_0_r. cbn. lia.
    + rewrite (Qtrunc_comp _ _ (SF2Q_nonneg_exp s m (Z.pos p) ltac:(lia))).
      rewrite Qtrunc_inject_Z, Z.shiftl_mul_pow2 by lia.
      destruct s; cbn [cond_Zopp]; lia.
    + rewrite (Qtrunc_comp _ _ (SF2Q_neg_exp s m p)), Qtrunc_frac.
      rewrite Z.shiftr_div_pow2 by lia. now rewrite Pos2Z.inj_pow.
Qed.

Lemma py_int_total (x : F64.t) :
  is_finite x = true -> exists n, py_int x = Ok n.
Proof.
  destruct x; cbn [py_int is_finite]; try discriminate; eauto.
Qed.

Lemma Qfloor_div_Z (a h : Z) :
  h <> 0 -> Qfloor (inject_Z a / inject_Z h) = a / h.
Proof.
  intros Hh. destruct h as [|h|h]; [contradiction| |];
    unfold Qdiv, Qinv, Qmult, inject_Z, Qfloor; cbn [Qnum Qden].
  - rewrite Z.mul_1_r. reflexivity.
  - change (Z.pos (1 * h)) with (Z.pos h). change (Z.neg h) with (- Z.pos h).
    rewrite <- (Z.div_opp_opp a (- Z.pos h)) by lia.
    rewrite Z.opp_involutive. f_equal. lia.
Qed.

(** C5, as the code has it: for every [sample_rate] and [duration] with a
    finite product, [signal_len] is [int(sample_rate * duration)], the
    product truncated toward zero, and for a non-zero [hop] the frame count
    is [floor((signal_len - win) / hop) + 1]. *)
Theorem derived_lengths (c : config) :
  is_finite (F64.mul (sample_rate c) (duration c)) = true ->
  exists n,
    signal_len c = Ok n /\
    n = Qtrunc (SF2Q (F64.mul (sample_rate c) (duration c))) /\
    (hop c <> 0 ->
     outsize c = Ok (Qfloor (inject_Z (n - win c) / inject_Z (hop c)) + 1)).
Proof.
  intros Hfin. destruct (py_int_total _ Hfin) as [n Hn].
  exists n. split; [exact Hn|]. split; [now apply py_int_trunc|].
  intros Hhop. unfold outsize, signal_len. rewrite Hn. cbn [rbind].
  unfold py_floordiv. destruct (Z.eqb_spec (hop c) 0); [contradiction|].
  cbn [rbind]. now rewrite Qfloor_div_Z.
Qed.

Lemma derived_lengths_witness :
  exists n,
    signal_len default_config = Ok n /\
    n = Qtrunc (SF2Q (F64.mul (sample_rate default_config)
                              (duration default_config))) /\
    (hop default_config <> 0 ->
     outsize default_config =
     Ok (Qfloor (inject_Z (n - win default_config) /
                 inject_Z (hop default_config)) + 1)).
Proof.
  apply (derived_lengths default_config). reflexivity.
Defined.

(** C5, as the specification words it, fails: at 8000.75 Hz over one second
    the product is 8000.75, [signal_len] is 8000 and the nearest integer is
    8001. *)
Lemma signal_len_not_rounded :
  (SF2Q (F64.mul (sample_rate config_8000_75) (duration config_8000_75))
     == 32003 # 4)%Q /\
  round_half_even
    (SF2Q (F64.mul (sample_rate config_8000_75) (duration config_8000_75)))
    = 8001 /\
  signal_len config_8000_75 = Ok 8000 /\
  signal_len config_8000_75 <>
  Ok (round_half_even
        (SF2Q (F64.mul (sample_rate config_8000_75)
                       (duration config_8000_75)))).
Proof.
  split; [vm_compute; reflexivity|].
  split; [vm_compute; reflexivity|].
  split; [vm_compute; reflexivity|].
  vm_compute. discriminate.
Qed.

(** ** The fixed configuration *)

Lemma fromfile_run (contents : list F32.t) (s : store) :
  fromfile contents s =
  Ok (contiguous (length (floats s)) [length contents],
      Store (floats s ++ [contents]) (complexes s)).
Proof. reflexivity. Qed.

Lemma fromfile_flat (contents : list F32.t) (s : store) :
  flat_array (Store (floats s ++ [contents]) (complexes s))
             (contiguous (length (floats s)) [length contents]) contents.
Proof.
  repeat split. cbn [floats base contiguous]. now apply list_lookup_middle.
Qed.

(** C3: with [sample_rate = 8000], [duration = 1.0], [hop = 128],
    [win = 256] and [fftsize = 256] the script derives a signal length of
    8000, 61 frames and 128 bins; a file of exactly 15616 floats decodes
    to a 61 x 128 complex array, and a file of 15615 or 15617 floats
    raises the reshape error. *)
Theorem fixed_configuration :
  signal_len default_config = Ok 8000 /\
  outsize default_config = Ok 61 /\
  bin_count default_config = 128 /\
  forall (contents : list F32.t) (s : store),
    (Z.of_nat (length contents) = 15616 ->
     exists z s',
       (let* data := fromfile contents in decode data 61 128) s = Ok (z, s') /\
       shape z = [61%nat; 128%nat]) /\
    (Z.of_nat (length contents) = 15615 \/
     Z.of_nat (length contents) = 15617 ->
     (let* data := fromfile contents in decode data 61 128) s =
     Raise ShapeMismatch).
Proof.
  split; [vm_compute; reflexivity|].
  split; [vm_compute; reflexivity|].
  split; [reflexivity|].
  intros contents s. unfold bind. rewrite fromfile_run.
  pose proof (fromfile_flat contents s) as Hflat.
  pose proof (fix_unknown_dimension_known (Z.of_nat (length contents)) 61 128
                ltac:(lia) ltac:(lia)) as Hfix.
  split.
  - intros Hlen. rewrite Hlen in Hfix.
    change (15616 =? 61 * 128 * 2) with true in Hfix. cbv iota in Hfix.
    rewrite <- Hlen in Hfix.
    rewrite (decode_run _ _ _ _ _ _ _ Hflat Hfix).
    eexists _, _. split; reflexivity.
  - intros Hlen. apply (decode_raises _ _ _ _ _ _ Hflat).
    rewrite Hfix. destruct Hlen as [-> | ->]; reflexivity.
Qed.

Lemma fixed_configuration_witness :
  exists z s',
    (let* data := fromfile (repeat F32.zero (Z.to_nat 15616)) in decode data 61 128)
      empty_store = Ok (z, s') /\
    shape z = [61%nat; 128%nat].
Proof.
  destruct fixed_configuration as (_ & _ & _ & H).
  destruct (H (repeat F32.zero (Z.to_nat 15616)) empty_store) as [Hok _].
  apply Hok. rewrite repeat_length. reflexivity.
Defined.

(** ** An inferred frame count *)




(** ** Rounding never leaves the non-negative mantissas *)

Lemma shr_1_bounds (mrs : shr_record) :
  0 <= shr_m mrs -> 0 <= shr_m (shr_1 mrs) <= shr_m mrs.
Proof.
  destruct mrs as [m r s]. cbn [shr_m].
  destruct m as [|[p|p|]|p]; cbn [shr_1 shr_m]; lia.
Qed.

Lemma iter_shr_1_bounds (p : positive) (mrs : shr_record) :
  0 <= shr_m mrs ->
  0 <= shr_m (SpecFloat.iter_pos shr_1 p mrs) <= shr_m mrs.
Proof.
  revert mrs. induction p as [p IH|p IH|]; intros mrs Hm;
    cbn [SpecFloat.iter_pos].
  - pose proof (shr_1_bounds mrs Hm) as H1.
    pose proof (IH _ (proj1 H1)) as H2.
    pose proof (IH _ (proj1 H2)) as H3. lia.
  - pose proof (IH _ Hm) as H2.
    pose proof (IH _ (proj1 H2)) as H3. lia.
  - now apply shr_1_bounds.
Qed.

Lemma shr_bounds (mrs : shr_record) (e n : Z) :
  0 <= shr_m mrs ->
  0 <= shr_m (fst (shr mrs e n)) <= shr_m mrs /\
  snd (shr mrs e n) = Z.max e (e + n).
Proof.
  intros Hm. destruct n as [|p|p]; cbn [shr fst snd]; try (split; lia).
  split; [now apply iter_shr_1_bounds | lia].
Qed.

Lemma shr_record_of_loc_m (m : Z) (l : location) :
  shr_m (shr_record_of_loc m l) = m.
Proof. destruct l as [|[]]; reflexivity. Qed.

Lemma round_nearest_even_bounds (m : Z) (l : location) :
  m <= round_nearest_even m l <= m + 1.
Proof.
  destruct l as [|[]]; cbn [round_nearest_even]; try lia.
  destruct (Z.even m); lia.
Qed.

Lemma digits2_log2 (p : positive) :
  Z.pos (digits2_pos p) = Z.log2 (Z.pos p) + 1.
Proof.
  assert (Hs : forall q, digits2_pos q = Pos.size q).
  { induction q as [q IH|q IH|]; cbn [digits2_pos Pos.size];
      now rewrite ?IH. }
  rewrite Hs. destruct p; cbn [Z.log2 Pos.size]; lia.
Qed.

Lemma Zdigits2_mono (a b : Z) :
  0 <= a <= b -> Zdigits2 a <= Zdigits2 b.
Proof.
  intros [Ha Hab]. destruct a as [|a|a]; [|destruct b as [|b|b]|]; try lia.
  - destruct b; cbn [Zdigits2]; lia.
  - cbn [Zdigits2]. rewrite !digits2_log2.
    pose proof (Z.log2_le_mono (Z.pos a) (Z.pos b) Hab). lia.
Qed.

Lemma Zdigits2_succ (a : Z) : 0 <= a -> Zdigits2 (a + 1) <= Zdigits2 a + 1.
Proof.
  intros Ha. destruct a as [|a|a]; [now vm_compute| |lia].
  change (Z.pos a + 1) with (Z.pos (a + 1)). cbn [Zdigits2].
  rewrite !digits2_log2.
  pose proof (Z.log2_succ_le (Z.pos a)).
  replace (Z.pos (a + 1)) with (Z.succ (Z.pos a)) by lia. lia.
Qed.

Lemma Zdigits2_mul (a b : positive) :
  Zdigits2 (Z.pos (a * b)) <= Zdigits2 (Z.pos a) + Zdigits2 (Z.pos b).
Proof.
  cbn [Zdigits2]. rewrite !digits2_log2.
  pose proof (Z.log2_mul_above (Z.pos a) (Z.pos b) ltac:(lia) ltac:(lia)).
  rewrite Pos2Z.inj_mul. lia.
Qed.

(** What [binary_round_aux] can return on a non-negative mantissa: a float
    of the given sign, never NaN, and a finite one when the exponents stay
    below the overflow threshold. *)
Lemma binary_round_aux_cases (prec emax : Z) (sx : bool) (mx ex : Z)
    (lx : location) :
  0 <= mx ->
  let r := binary_round_aux prec emax sx mx ex lx in
  is_nan r = false /\ (sign_bit r = sx) /\
  (Zdigits2 mx + 1 + Z.max ex (fexp prec emax (Zdigits2 mx + ex)) - prec
     <= emax - prec ->
   Z.max ex (fexp prec emax (Zdigits2 mx + ex)) <= emax - prec ->
   emin prec emax <= emax - prec ->
   is_finite r = true).
Proof.
  intros Hmx r. subst r. unfold binary_round_aux, shr_fexp.
  destruct (shr (shr_record_of_loc mx lx) ex
              (fexp prec emax (Zdigits2 mx + ex) - ex)) as [mrs' e'] eqn:E1.
  pose proof (shr_bounds (shr_record_of_loc mx lx) ex
                (fexp prec emax (Zdigits2 mx + ex) - ex)) as H1.
  rewrite shr_record_of_loc_m, E1 in H1. cbn [fst snd] in H1.
  specialize (H1 Hmx). destruct H1 as [Hm' He'].
  set (m1 := round_nearest_even (shr_m mrs') (loc_of_shr_record mrs')).
  pose proof (round_nearest_even_bounds (shr_m mrs') (loc_of_shr_record mrs'))
    as Hm1. fold m1 in Hm1.
  destruct (shr (shr_record_of_loc m1 loc_Exact) e'
              (fexp prec emax (Zdigits2 m1 + e') - e')) as [mrs'' e''] eqn:E2.
  pose proof (shr_bounds (shr_record_of_loc m1 loc_Exact) e'
                (fexp prec emax (Zdigits2 m1 + e') - e')) as H2.
  rewrite shr_record_of_loc_m, E2 in H2. cbn [fst snd] in H2.
  specialize (H2 ltac:(lia)). destruct H2 as [Hm'' He''].
  destruct (shr_m mrs'') as [|m|m] eqn:Em; [| |lia].
  - repeat split.
  - destruct (e'' <=? emax - prec) eqn:El; repeat split.
    intros Hb1 Hb2 Hb3. exfalso.
    apply Z.leb_gt in El.
    assert (Hd : Zdigits2 m1 <= Zdigits2 mx + 1).
    { transitivity (Zdigits2 (shr_m mrs' + 1)).
      - apply Zdigits2_mono. lia.
      - transitivity (Zdigits2 (shr_m mrs') + 1).
        + apply Zdigits2_succ. lia.
        + pose proof (Zdigits2_mono (shr_m mrs') mx ltac:(lia)). lia. }
    unfold fexp in *. lia.
Qed.

(** ** Magnitude *)

Lemma hypotf_sign (hk : hypot_kernel) (x y : F32.t) :
  is_nan x = false -> is_nan y = false ->
  is_nan (hypotf hk x y) = false /\ sign_bit (hypotf hk x y) = false.
Proof.
  intros Hx Hy.
  destruct x as [sx|sx| |sx mx ex]; try discriminate;
    destruct y as [sy|sy| |sy my ey]; try discriminate;
    cbn [hypotf]; try (split; reflexivity);
    destruct (hk _ _) as [[m e]|]; split; reflexivity.
Qed.

Lemma nonneg_of_sign (r : spec_float) :
  is_nan r = false -> sign_bit r = false -> SFleb (S754_zero false) r = true.
Proof.
  destruct r as [s|s| |s m e]; cbn [is_nan sign_bit]; try discriminate;
    intros _ Hs; try subst s; reflexivity.
Qed.

Lemma hypotf_nonneg (hk : hypot_kernel) (x y : F32.t) :
  is_nan x = false -> is_nan y = false ->
  SFleb (S754_zero false) (hypotf hk x y) = true.
Proof.
  intros Hx Hy. destruct (hypotf_sign hk x y Hx Hy).
  now apply nonneg_of_sign.
Qed.

Lemma hypotf_nan (hk : hypot_kernel) (x y : F32.t) :
  is_nan (hypotf hk x y) = true <->
  (is_nan x = true \/ is_nan y = true) /\
  is_inf x = false /\ is_inf y = false.
Proof.
  destruct x as [sx|sx| |sx mx ex], y as [sy|sy| |sy my ey];
    cbn [hypotf is_nan is_inf];
    try (destruct (hk _ _) as [[m e]|]; cbn [is_nan]);
    split; try discriminate; try (intros _; auto; fail);
    intros [[H|H] [H1 H2]]; discriminate.
Qed.

Lemma hypotf_nan_or_nonneg (hk : hypot_kernel) (x y : F32.t) :
  is_nan (hypotf hk x y) = true \/
  SFleb (S754_zero false) (hypotf hk x y) = true.
Proof.
  destruct (is_nan (hypotf hk x y)) eqn:Hn; [now left|right].
  destruct (is_nan x) eqn:Hx; [|destruct (is_nan y) eqn:Hy].
  - destruct x; try discriminate.
    destruct y as [| | |]; cbn in Hn |- *; try discriminate; reflexivity.
  - destruct y; try discriminate.
    destruct x as [| | |]; cbn in Hn |- *; try discriminate; reflexivity.
  - now apply hypotf_nonneg.
Qed.

(** ** Running the spectrogram *)

Lemma map_cf_run (g : complex64 -> F32.t) (v : view) (s : store)
    (cb : list complex64) :
  complexes s !! base v = Some cb ->
  map_cf g v s =
  Ok (contiguous (length (floats s)) (shape v),
      Store (floats s ++ [map g (elems cb v)]) (complexes s)).
Proof.
  intros Hcb. unfold map_cf, bind, alloc_f, ret.
  rewrite (list_lookup_total_correct _ _ _ Hcb). reflexivity.
Qed.

Lemma map_ff_run (g : F32.t -> F32.t) (v : view) (s : store)
    (fb : list F32.t) :
  floats s !! base v = Some fb ->
  map_ff g v s =
  Ok (contiguous (length (floats s)) (shape v),
      Store (floats s ++ [map g (elems fb v)]) (complexes s)).
Proof.
  intros Hfb. unfold map_ff, bind, alloc_f, ret.
  rewrite (list_lookup_total_correct _ _ _ Hfb). reflexivity.
Qed.

Lemma map_map_seq_lookup {A B} `{Inhabited A} (g : A -> B) (h : nat -> A)
    (n : nat) :
  map g (map (fun k => map h (seq 0 n) !!! k) (seq 0 n)) =
  map (fun k => g (h k)) (seq 0 n).
Proof.
  rewrite map_map. apply map_ext_in. intros k Hk. apply in_seq in Hk.
  now rewrite map_seq_lookup_total by lia.
Qed.

Lemma spectrogram_run (hk : hypot_kernel)
    (s : store) (data : view) (buf : list F32.t)
    (fc bc F B : Z) :
  flat_array s data buf ->
  fix_unknown_dimension (Z.of_nat (length buf)) [fc; bc; 2] = Ok [F; B; 2] ->
  let n := (Z.to_nat F * Z.to_nat B)%nat in
  spectrogram hk data fc bc s =
  Ok ((contiguous (S (length (complexes s))) [Z.to_nat F; Z.to_nat B],
       contiguous (length (floats s)) [Z.to_nat F; Z.to_nat B]),
      Store (floats s ++ [map (fun k => np_abs hk (decoded_at buf k))
                          (seq 0 n)])
            (complexes s ++ [map (product_at buf) (seq 0 n)]
                         ++ [map (decoded_at buf) (seq 0 n)])).
Proof.
  intros Hflat Hfix n. unfold spectrogram, bind at 1.
  rewrite (decode_run _ _ _ _ _ _ _ Hflat Hfix). fold n.
  unfold bind, magnitude.
  erewrite map_cf_run.
  2:{ cbn [complexes base contiguous]. rewrite app_assoc.
      apply list_lookup_middle. rewrite length_app. cbn [length]. lia. }
  unfold ret. cbn [floats complexes shape contiguous].
  rewrite (elems_contiguous2 _ _ (Z.to_nat F) (Z.to_nat B)). fold n.
  now rewrite map_map_seq_lookup.
Qed.

Lemma fix_unknown_dimension_shape (n fc bc : Z) (l : list Z) :
  fix_unknown_dimension n [fc; bc; 2] = Ok l ->
  exists F B, l = [F; B; 2].
Proof.
  unfold fix_unknown_dimension. cbn [scan_dims].
  destruct (fc <? 0), (bc <? 0); cbn [Z.ltb Z.compare rbind];
    try discriminate;
    repeat match goal with
           | |- context [if ?c then _ else _] => destruct c
           end; try discriminate; intros [= <-]; cbn; eauto.
Qed.

Lemma spectrogram_elements {hk : hypot_kernel} (s s' : store) (data z m : view)
    (buf : list F32.t) (fc bc : Z) :
  flat_array s data buf ->
  spectrogram hk data fc bc s = Ok ((z, m), s') ->
  exists nf nb : nat,
    shape z = [nf; nb] /\ shape m = [nf; nb] /\
    m = contiguous (length (floats s)) [nf; nb] /\
    floats s' = floats s ++ [map (fun k => np_abs hk (decoded_at buf k))
                                 (seq 0 (nf * nb))] /\
    forall f b : nat, (f < nf)%nat -> (b < nb)%nat ->
      getc s' z [f; b] = decoded_at buf (f * nb + b) /\
      getf s' m [f; b] = np_abs hk (decoded_at buf (f * nb + b)).
Proof.
  intros Hflat Hrun.
  destruct (fix_unknown_dimension (Z.of_nat (length buf)) [fc; bc; 2])
    as [l|e] eqn:Hfix.
  2:{ unfold spectrogram, bind in Hrun.
      rewrite (decode_raises _ _ _ _ _ _ Hflat Hfix) in Hrun. discriminate. }
  destruct (fix_unknown_dimension_shape _ _ _ _ Hfix) as (F & B & ->).
  rewrite (spectrogram_run hk _ _ _ _ _ _ _ Hflat Hfix) in Hrun.
  injection Hrun as <- <- <-.
  exists (Z.to_nat F), (Z.to_nat B).
  split; [reflexivity|]. split; [reflexivity|].
  split; [reflexivity|]. split; [reflexivity|].
  intros f b Hf Hb. pose proof (flat_index_lt _ _ _ _ Hf Hb) as Hk. split.
  - unfold getc, position.
    cbn [contiguous base offset strides complexes c_strides size_of
         fold_right dot].
    rewrite (list_lookup_total_correct _ _ (map (decoded_at buf)
               (seq 0 (Z.to_nat F * Z.to_nat B)))).
    2:{ change (complexes s ++ [?a; ?b]) with (complexes s ++ [a] ++ [b]).
        rewrite app_assoc. apply list_lookup_middle.
        rewrite length_app. cbn [length]. lia. }
    replace (0 + (Z.to_nat B * 1 * f + (1 * b + 0)))%nat
      with (f * Z.to_nat B + b)%nat by lia.
    now apply map_seq_lookup_total.
  - unfold getf, position.
    cbn [contiguous base offset strides floats c_strides size_of
         fold_right dot].
    rewrite (list_lookup_total_correct _ _
               (map (fun k => np_abs hk (decoded_at buf k))
                    (seq 0 (Z.to_nat F * Z.to_nat B)))).
    2:{ now apply list_lookup_middle. }
    replace (0 + (Z.to_nat B * 1 * f + (1 * b + 0)))%nat
      with (f * Z.to_nat B + b)%nat by lia.
    now apply (map_seq_lookup_total (fun k => np_abs hk (decoded_at buf k))).
Qed.

(** C10, as the code has it: every element of the magnitude is [np.abs] of
    the decoded element at the same place, and it is either NaN or not
    below zero.  It is NaN exactly when a component of the decoded element
    is NaN and neither is infinite; so it is not below zero whenever
    neither component is NaN.  This holds whatever the library's [hypot]
    returns on finite pairs, within its range. *)
Theorem magnitude_nonneg_or_nan (hk : hypot_kernel) (s s' : store)
    (data z m : view) (buf : list F32.t) (frame_count bin_count : Z) :
  flat_array s data buf ->
  spectrogram hk data frame_count bin_count s = Ok ((z, m), s') ->
  exists nf nb : nat,
    shape z = [nf; nb] /\ shape m = [nf; nb] /\
    forall f b : nat, (f < nf)%nat -> (b < nb)%nat ->
      let c := getc s' z [f; b] in
      let a := getf s' m [f; b] in
      a = np_abs hk c /\
      (is_nan a = true \/ SFleb (S754_zero false) a = true) /\
      (is_nan a = true <->
       (is_nan (re c) = true \/ is_nan (im c) = true) /\
       is_inf (re c) = false /\ is_inf (im c) = false) /\
      (is_nan (re c) = false -> is_nan (im c) = false ->
       SFleb (S754_zero false) a = true).
Proof.
  intros Hflat Hrun.
  destruct (spectrogram_elements _ _ _ _ _ _ _ _ Hflat Hrun)
    as (nf & nb & Hz & Hm & _ & _ & Hel).
  exists nf, nb. split; [exact Hz|]. split; [exact Hm|].
  intros f b Hf Hb c a. subst c a.
  destruct (Hel f b Hf Hb) as [-> ->]. unfold np_abs.
  split; [reflexivity|]. split; [|split].
  - apply hypotf_nan_or_nonneg.
  - apply hypotf_nan.
  - apply hypotf_nonneg.
Qed.

Lemma magnitude_nonneg_or_nan_witness :
  exists z m s',
    spectrogram hypot_rounded (contiguous 0 [2%nat]) 1 1
                (Store [[F32.of_Z2 3 0; F32.of_Z2 (-4) 0]] [])
      = Ok ((z, m), s') /\
    getf s' m [0%nat; 0%nat] = F32.of_Z2 5 0 /\
    exists nf nb : nat,
      shape z = [nf; nb] /\ shape m = [nf; nb] /\
      forall f b : nat, (f < nf)%nat -> (b < nb)%nat ->
        let c := getc s' z [f; b] in
        let a := getf s' m [f; b] in
        a = np_abs hypot_rounded c /\
        (is_nan a = true \/ SFleb (S754_zero false) a = true) /\
        (is_nan a = true <->
         (is_nan (re c) = true \/ is_nan (im c) = true) /\
         is_inf (re c) = false /\ is_inf (im c) = false) /\
        (is_nan (re c) = false -> is_nan (im c) = false ->
         SFleb (S754_zero false) a = true).
Proof.
  eexists _, _, _. split; [vm_compute; reflexivity|].
  split; [vm_compute; reflexivity|].
  apply (magnitude_nonneg_or_nan hypot_rounded
           (Store [[F32.of_Z2 3 0; F32.of_Z2 (-4) 0]] [])
           _ (contiguous 0 [2%nat]) _ _
           [F32.of_Z2 3 0; F32.of_Z2 (-4) 0] 1 1).
  - repeat split.
  - vm_compute. reflexivity.
Defined.

(** C10, as stated, fails on a NaN: the magnitude of the element decoded
    from the pair (NaN, 0.0) is NaN, and [0 <= NaN] is false. *)
Lemma magnitude_of_nan :
  exists z m s',
    (let* data := fromfile [S754_nan; F32.zero]
     in spectrogram hypot_rounded data 1 1)
      empty_store = Ok ((z, m), s') /\
    shape m = [1%nat; 1%nat] /\
    getf s' m [0%nat; 0%nat] = S754_nan /\
    SFleb (S754_zero false) (getf s' m [0%nat; 0%nat]) = false.
Proof.
  eexists _, _, _. split; [vm_compute; reflexivity|].
  repeat split.
Qed.

(** ** Determinism and the input buffer *)

Lemma rows_ext {A} (g h : list nat -> A) (n m : nat) :
  (forall f b, (f < n)%nat -> (b < m)%nat -> g [f; b] = h [f; b]) ->
  rows g [n; m] = rows h [n; m].
Proof.
  intros Hgh. unfold rows. apply map_ext_in. intros f Hf.
  apply in_seq in Hf. apply map_ext_in. intros b Hb. apply in_seq in Hb.
  apply Hgh; lia.
Qed.

Lemma flat_array_grows (s : store) (data : view) (buf : list F32.t)
    (fs : list (list F32.t)) (cs : list (list complex64)) :
  flat_array s data buf ->
  flat_array (Store (floats s ++ fs) cs) data buf.
Proof.
  intros (Hbuf & Hrest). split; [|exact Hrest].
  cbn [floats]. now apply lookup_app_l_Some.
Qed.

(** C9: two runs on equal buffers with equal [frame_count] and
    [bin_count], in whatever stores, either raise the same exception or
    return complex arrays and magnitudes equal element for element; the
    input array still holds the same floats afterwards, and so does every
    buffer that existed before the run. *)
Theorem decode_deterministic (hk : hypot_kernel) (s1 s2 : store) (d1 d2 : view)
    (buf : list F32.t) (frame_count bin_count : Z) :
  flat_array s1 d1 buf -> flat_array s2 d2 buf ->
  match spectrogram hk d1 frame_count bin_count s1,
        spectrogram hk d2 frame_count bin_count s2 with
  | Ok ((z1, m1), s1'), Ok ((z2, m2), s2') =>
      shape z1 = shape z2 /\
      rows (getc s1' z1) (shape z1) = rows (getc s2' z2) (shape z2) /\
      rows (getf s1' m1) (shape m1) = rows (getf s2' m2) (shape m2) /\
      flat_array s1' d1 buf /\ flat_array s2' d2 buf /\
      (forall a b, floats s1 !! a = Some b -> floats s1' !! a = Some b) /\
      (forall a b, complexes s1 !! a = Some b -> complexes s1' !! a = Some b)
  | Raise e1, Raise e2 => e1 = e2
  | _, _ => False
  end.
Proof.
  intros H1 H2.
  destruct (fix_unknown_dimension (Z.of_nat (length buf))
              [frame_count; bin_count; 2]) as [l|e] eqn:Hfix.
  2:{ unfold spectrogram, bind.
      rewrite (decode_raises _ _ _ _ _ _ H1 Hfix).
      rewrite (decode_raises _ _ _ _ _ _ H2 Hfix). reflexivity. }
  destruct (fix_unknown_dimension_shape _ _ _ _ Hfix) as (F & B & ->).
  pose proof (spectrogram_run hk _ _ _ _ _ _ _ H1 Hfix) as R1.
  pose proof (spectrogram_run hk _ _ _ _ _ _ _ H2 Hfix) as R2.
  cbv zeta in R1, R2.
  destruct (spectrogram_elements _ _ _ _ _ _ _ _ H1 R1)
    as (nf & nb & Hz1 & _ & _ & _ & E1).
  destruct (spectrogram_elements _ _ _ _ _ _ _ _ H2 R2)
    as (nf' & nb' & Hz2 & _ & _ & _ & E2).
  cbn [shape contiguous] in Hz1, Hz2.
  injection Hz1 as <- <-. injection Hz2 as <- <-.
  rewrite R1, R2. cbn [shape contiguous].
  split; [reflexivity|].
  split.
  { apply rows_ext. intros f b Hf Hb.
    destruct (E1 f b Hf Hb) as [-> _]. destruct (E2 f b Hf Hb) as [-> _].
    reflexivity. }
  split.
  { apply rows_ext. intros f b Hf Hb.
    destruct (E1 f b Hf Hb) as [_ ->]. destruct (E2 f b Hf Hb) as [_ ->].
    reflexivity. }
  split; [now apply flat_array_grows|].
  split; [now apply flat_array_grows|].
  split; intros a b Hab; cbn [floats complexes]; now apply lookup_app_l_Some.
Qed.

Lemma decode_deterministic_witness :
  match spectrogram hypot_rounded (contiguous 0 [2%nat]) 1 1
                    (Store [[F32.of_Z2 3 0; F32.of_Z2 (-4) 0]] []),
        spectrogram hypot_rounded (contiguous 1 [2%nat]) 1 1
                    (Store [[F32.one]; [F32.of_Z2 3 0; F32.of_Z2 (-4) 0]]
                           [[Complex F32.one F32.one]]) with
  | Ok ((z1, m1), s1'), Ok ((z2, m2), s2') =>
      shape z1 = shape z2 /\
      rows (getc s1' z1) (shape z1) = rows (getc s2' z2) (shape z2) /\
      rows (getf s1' m1) (shape m1) = rows (getf s2' m2) (shape m2) /\
      flat_array s1' (contiguous 0 [2%nat]) [F32.of_Z2 3 0; F32.of_Z2 (-4) 0] /\
      flat_array s2' (contiguous 1 [2%nat]) [F32.of_Z2 3 0; F32.of_Z2 (-4) 0] /\
      (forall a b,
         floats (Store [[F32.of_Z2 3 0; F32.of_Z2 (-4) 0]] []) !! a = Some b ->
         floats s1' !! a = Some b) /\
      (forall a b,
         complexes (Store [[F32.of_Z2 3 0; F32.of_Z2 (-4) 0]] []) !! a = Some b ->
         complexes s1' !! a = Some b)
  | Raise e1, Raise e2 => e1 = e2
  | _, _ => False
  end.
Proof.
  apply (decode_deterministic hypot_rounded
           (Store [[F32.of_Z2 3 0; F32.of_Z2 (-4) 0]] [])
           (Store [[F32.one]; [F32.of_Z2 3 0; F32.of_Z2 (-4) 0]]
                  [[Complex F32.one F32.one]])
           (contiguous 0 [2%nat]) (contiguous 1 [2%nat])
           [F32.of_Z2 3 0; F32.of_Z2 (-4) 0] 1 1).
  - repeat split.
  - repeat split.
Defined.

(** ** Round trip through the file layout *)

Lemma encode_pairs_lookup (l : list complex64) (k : nat) :
  (k < length l)%nat ->
  flat_map (fun c => [re c; im c]) l !!! (0 + 2 * k)%nat = re (l !!! k) /\
  flat_map (fun c => [re c; im c]) l !!! (1 + 2 * k)%nat = im (l !!! k).
Proof.
  revert k. induction l as [|c l IH]; intros k Hk; [cbn in Hk; lia|].
  destruct k as [|k].
  - split; reflexivity.
  - cbn [length] in Hk. destruct (IH k ltac:(lia)) as [IHre IHim].
    replace (0 + 2 * S k)%nat with (S (S (0 + 2 * k))) by lia.
    replace (1 + 2 * S k)%nat with (S (S (1 + 2 * k))) by lia.
    cbn [flat_map app]. split; [exact IHre | exact IHim].
Qed.

Lemma encode_pairs_length (l : list complex64) :
  length (flat_map (fun c => [re c; im c]) l) = (length l * 2)%nat.
Proof.
  induction l as [|c l IH]; [reflexivity|].
  cbn [flat_map app length]. rewrite IH. lia.
Qed.

Lemma concat_length_uniform {A} (m : list (list A)) (nb : nat) :
  Forall (fun row => length row = nb) m ->
  length (concat m) = (length m * nb)%nat.
Proof.
  induction 1 as [|row m Hrow _ IH]; [reflexivity|].
  cbn [concat length]. rewrite length_app, IH, Hrow. lia.
Qed.

Lemma concat_lookup_uniform {A} `{Inhabited A} (m : list (list A))
    (nb f b : nat) :
  Forall (fun row => length row = nb) m ->
  (f < length m)%nat -> (b < nb)%nat ->
  concat m !!! (f * nb + b)%nat = (m !!! f) !!! b.
Proof.
  intros Hm. revert f. induction Hm as [|row m Hrow _ IH]; intros f Hf Hb;
    [cbn in Hf; lia|].
  cbn [concat]. destruct f as [|f].
  - cbn [Nat.mul Nat.add]. rewrite lookup_total_app_l by lia. reflexivity.
  - cbn [length] in Hf. rewrite lookup_total_app_r by (rewrite Hrow; nia).
    rewrite Hrow. replace (S f * nb + b - nb)%nat with (f * nb + b)%nat by nia.
    rewrite IH by lia. reflexivity.
Qed.

Lemma tabulate_rows {A B} `{Inhabited A} (g : A -> B) (m : list (list A))
    (nb : nat) :
  Forall (fun row => length row = nb) m ->
  map (map g) m =
  map (fun f => map (fun b => g ((m !!! f) !!! b)) (seq 0 nb))
      (seq 0 (length m)).
Proof.
  intros Hm. apply list_eq. intros f.
  rewrite !list_lookup_fmap.
  destruct (decide (f < length m)%nat) as [Hf|Hf].
  - rewrite lookup_seq_lt by lia. cbn [fmap option_fmap option_map Nat.add].
    destruct (lookup_lt_is_Some_2 m f Hf) as [row Hrow].
    rewrite Hrow, (list_lookup_total_correct _ _ _ Hrow).
    cbn [fmap option_fmap option_map]. f_equal.
    rewrite Forall_forall in Hm.
    assert (Hlen : length row = nb).
    { apply Hm. eapply list_elem_of_lookup_2; eauto. }
    subst nb. apply list_eq. intros b. rewrite !list_lookup_fmap.
    destruct (decide (b < length row)%nat) as [Hb|Hb].
    + rewrite lookup_seq_lt by lia.
      destruct (lookup_lt_is_Some_2 row b Hb) as [c Hc].
      rewrite Hc. cbn [fmap option_fmap option_map Nat.add].
      now rewrite (list_lookup_total_correct _ _ _ Hc).
    + rewrite lookup_seq_ge, lookup_ge_None_2 by lia. reflexivity.
  - rewrite lookup_seq_ge, lookup_ge_None_2 by lia. reflexivity.
Qed.

Lemma matrix_entry {A} `{Inhabited A} (P : A -> Prop) (m : list (list A))
    (nb f b : nat) :
  Forall (fun row => length row = nb) m ->
  Forall (Forall P) m ->
  (f < length m)%nat -> (b < nb)%nat ->
  P ((m !!! f) !!! b).
Proof.
  intros Hlen HP Hf Hb.
  destruct (lookup_lt_is_Some_2 m f Hf) as [row Hrow].
  rewrite (list_lookup_total_correct _ _ _ Hrow).
  pose proof (Forall_lookup_1 _ _ _ _ Hlen Hrow) as Hl. cbn beta in Hl.
  pose proof (Forall_lookup_1 _ _ _ _ HP Hrow) as Hr.
  destruct (lookup_lt_is_Some_2 row b ltac:(lia)) as [c Hc].
  rewrite (list_lookup_total_correct _ _ _ Hc).
  exact (Forall_lookup_1 _ _ _ _ Hr Hc).
Qed.

Lemma rows_tabulate {A} (g : list nat -> A) (h : nat -> nat -> A)
    (n m : nat) :
  (forall f b, (f < n)%nat -> (b < m)%nat -> g [f; b] = h f b) ->
  rows g [n; m] = map (fun f => map (fun b => h f b) (seq 0 m)) (seq 0 n).
Proof.
  intros Hgh. unfold rows. apply map_ext_in. intros f Hf.
  apply in_seq in Hf. apply map_ext_in. intros b Hb. apply in_seq in Hb.
  apply Hgh; lia.
Qed.

(** C4, as the code has it: a matrix of finite binary32 components,
    encoded into the interleaved row-major layout and decoded with the
    same frame and bin counts, comes back with every component numerically
    equal and, bit for bit, as [rebuilt] says: a negative-zero imaginary
    part returns as [+0], and so does a negative-zero real part beside an
    imaginary part whose sign bit is clear.  When no component is a
    negative zero the matrix comes back exactly. *)
Theorem roundtrip (m : list (list complex64)) (nf nb : nat) (s : store) :
  (1 <= nf)%nat -> (1 <= nb)%nat ->
  length m = nf ->
  Forall (fun row => length row = nb) m ->
  Forall (Forall (fun c => finite32 (re c) /\ finite32 (im c))) m ->
  exists z s',
    (let* data := fromfile (encode m) in
     decode data (Z.of_nat nf) (Z.of_nat nb)) s = Ok (z, s') /\
    shape z = [nf; nb] /\
    Forall2 (Forall2 same_value) (rows (getc s' z) (shape z)) m /\
    rows (getc s' z) (shape z) = map (map rebuilt) m /\
    (Forall (Forall (fun c => is_neg_zero (re c) = false /\
                              is_neg_zero (im c) = false)) m ->
     rows (getc s' z) (shape z) = m).
Proof.
  intros Hnf Hnb Hlen Hrows Hfin.
  assert (Hcl : length (concat m) = (nf * nb)%nat)
    by (rewrite (concat_length_uniform m nb Hrows), Hlen; reflexivity).
  unfold bind. rewrite fromfile_run.
  pose proof (fromfile_flat (encode m) s) as Hflat.
  assert (Hfix : fix_unknown_dimension (Z.of_nat (length (encode m)))
                   [Z.of_nat nf; Z.of_nat nb; 2] =
                 Ok [Z.of_nat nf; Z.of_nat nb; 2]).
  { rewrite fix_unknown_dimension_known by lia.
    unfold encode. rewrite encode_pairs_length, Hcl.
    destruct (Z.eqb_spec (Z.of_nat (nf * nb * 2))
                         (Z.of_nat nf * Z.of_nat nb * 2)); [reflexivity|lia]. }
  pose proof (decode_run _ _ _ _ _ _ _ Hflat Hfix) as Hrun. cbv zeta in Hrun.
  rewrite !Nat2Z.id in Hrun.
  match type of Hrun with
  | _ = Ok (?z0, ?s0) => set (z := z0) in *; set (s' := s0) in *
  end.
  exists z, s'. split; [exact Hrun|]. split; [reflexivity|].
  assert (Hrebuilt : rows (getc s' z) [nf; nb] = map (map rebuilt) m).
  { rewrite (tabulate_rows rebuilt m nb Hrows), Hlen.
    apply rows_tabulate. intros f b Hf Hb.
    pose proof (decoded_element _ s' _ z _ _ _ _ _ f b Hflat Hfix) as Hel.
    rewrite !Nat2Z.id in Hel.
    destruct (Hel Hrun Hf Hb) as [_ ->].
    pose proof (flat_index_lt _ _ _ _ Hf Hb) as Hk.
    unfold decoded_at, product_at, encode.
    destruct (encode_pairs_lookup (concat m) (f * nb + b) ltac:(lia))
      as [-> ->].
    rewrite (concat_lookup_uniform m nb f b Hrows) by lia.
    destruct (matrix_entry _ m nb f b Hrows Hfin ltac:(lia) Hb)
      as [[Hre _] [Him Hvalid]].
    rewrite rebuild_finite by assumption.
    now destruct ((m !!! f) !!! b). }
  change (shape z) with [nf; nb]. split; [|split; [exact Hrebuilt|]].
  { rewrite Hrebuilt. apply Forall2_fmap_l, Forall_Forall2_diag.
    eapply Forall_impl; [exact Hfin|]. intros row Hrow. cbn beta.
    apply Forall2_fmap_l, Forall_Forall2_diag.
    eapply Forall_impl; [exact Hrow|].
    intros [x y] [[Hx _] [Hy _]]. now apply rebuilt_eqb. }
  intros Hnz. rewrite Hrebuilt.
  rewrite <- (map_id m) at 2. apply map_ext_Forall.
  eapply Forall_impl; [exact Hnz|]. intros row Hrow. cbn beta.
  rewrite <- (map_id row) at 2. apply map_ext_Forall.
  eapply Forall_impl; [exact Hrow|]. intros c [Hre Him]. cbn beta.
  now apply rebuilt_exact.
Qed.

Lemma roundtrip_witness :
  exists z s',
    (let* data := fromfile (encode [[Complex (F32.of_Z2 3 0) (F32.of_Z2 (-4) 0);
                                     Complex F32.one F32.zero]]) in
     decode data (Z.of_nat 1) (Z.of_nat 2)) empty_store = Ok (z, s') /\
    shape z = [1%nat; 2%nat] /\
    Forall2 (Forall2 same_value) (rows (getc s' z) (shape z))
            [[Complex (F32.of_Z2 3 0) (F32.of_Z2 (-4) 0);
              Complex F32.one F32.zero]] /\
    rows (getc s' z) (shape z) =
      map (map rebuilt) [[Complex (F32.of_Z2 3 0) (F32.of_Z2 (-4) 0);
                          Complex F32.one F32.zero]] /\
    (Forall (Forall (fun c => is_neg_zero (re c) = false /\
                              is_neg_zero (im c) = false))
            [[Complex (F32.of_Z2 3 0) (F32.of_Z2 (-4) 0);
              Complex F32.one F32.zero]] ->
     rows (getc s' z) (shape z) =
       [[Complex (F32.of_Z2 3 0) (F32.of_Z2 (-4) 0);
         Complex F32.one F32.zero]]).
Proof.
  apply (roundtrip [[Complex (F32.of_Z2 3 0) (F32.of_Z2 (-4) 0);
                     Complex F32.one F32.zero]] 1 2 empty_store).
  - lia.
  - lia.
  - reflexivity.
  - repeat constructor.
  - repeat constructor.
Defined.

(** C4, as stated, fails on a negative zero: the 1 x 1 matrix holding
    [1.0 - 0.0j] has finite components, and comes back as [1.0 + 0.0j],
    whose imaginary part differs in the sign bit. *)
Lemma roundtrip_loses_negative_zero :
  Forall (Forall (fun c => finite32 (re c) /\ finite32 (im c)))
         [[Complex F32.one (S754_zero true)]] /\
  exists z s',
    (let* data := fromfile (encode [[Complex F32.one (S754_zero true)]]) in
     decode data 1 1) empty_store = Ok (z, s') /\
    rows (getc s' z) (shape z) = [[Complex F32.one (S754_zero false)]] /\
    rows (getc s' z) (shape z) <> [[Complex F32.one (S754_zero true)]].
Proof.
  split; [repeat constructor|].
  eexists _, _. split; [vm_compute; reflexivity|].
  split; [vm_compute; reflexivity|].
  vm_compute. discriminate.
Qed.

(** ** The image handed to [imshow] *)

Lemma elems_transposed {A} `{Inhabited A} (buf : list A) (a n m : nat) :
  elems buf (transpose (contiguous a [n; m])) =
  map (fun k => buf !!! (k / n + m * (k mod n))%nat) (seq 0 (m * n)).
Proof.
  unfold transpose, contiguous.
  cbn [base offset shape strides c_strides size_of fold_right rev app].
  rewrite (elems_by_position _ _ (fun k => (k / n + m * (k mod n))%nat)).
  - cbn [shape size_of fold_right]. now rewrite Nat.mul_1_r.
  - intros k Hk. pose proof (size_pos_of_index _ _ _ Hk) as Hn.
    cbn [shape]. rewrite unravel2 by assumption.
    unfold position; cbn [offset strides dot]. lia.
Qed.

Section Display.

Variable log10f : F32.t -> F32.t.

Lemma decibels_run (v : view) (s : store) (fb : list F32.t)
    (h : nat -> F32.t) (p q : nat) :
  floats s !! base v = Some fb ->
  shape v = [p; q] ->
  elems fb v = map h (seq 0 (p * q)) ->
  decibels log10f v s =
  Ok (contiguous (S (S (length (floats s)))) [p; q],
      Store (floats s
               ++ [map (fun k => F32.add (h k) eps32) (seq 0 (p * q))]
               ++ [map (fun k => log10f (F32.add (h k) eps32)) (seq 0 (p * q))]
               ++ [map (fun k => db_of log10f (h k)) (seq 0 (p * q))])
            (complexes s)).
Proof.
  intros Hfb Hsh Hel. unfold decibels, bind at 1.
  rewrite (map_ff_run _ _ _ _ Hfb), Hsh, Hel, map_map.
  unfold bind at 1. erewrite map_ff_run.
  2:{ cbn [floats base contiguous]. now apply list_lookup_middle. }
  cbn [shape contiguous floats complexes].
  rewrite (elems_contiguous2 _ _ p q).
  rewrite (map_map_seq_lookup log10f (fun k => F32.add (h k) eps32)).
  erewrite map_ff_run.
  2:{ cbn [floats base contiguous]. apply list_lookup_middle.
      rewrite length_app. cbn [length]. lia. }
  cbn [shape contiguous floats complexes].
  rewrite (elems_contiguous2 _ _ p q).
  rewrite (map_map_seq_lookup (fun x => F32.mul twenty32 x)
             (fun k => log10f (F32.add (h k) eps32))).
  rewrite !length_app. cbn [length]. rewrite <- !app_assoc.
  repeat f_equal; lia.
Qed.

End Display.

Lemma bind_spectrogram {hk : hypot_kernel} {A} (data : view) (fc bc : Z)
    (k : view -> view -> M A) (s : store) :
  (let* z := decode data fc bc in let* m := magnitude hk z in k z m) s =
  match spectrogram hk data fc bc s with
  | Ok ((z, m), s1) => k z m s1
  | Raise e => Raise e
  end.
Proof.
  unfold spectrogram, bind, ret.
  destruct (decode data fc bc s) as [[z s0]|e]; [|reflexivity].
  destruct (magnitude hk z s0) as [[m s1]|e]; reflexivity.
Qed.

Section Image.

Variable log10f : F32.t -> F32.t.

Lemma main_image {hk : hypot_kernel}
    (c : config) (time_data : list (F64.t * F64.t))
    (contents : list F32.t) (s s' : store) (cmds : list plot_cmd) :
  main hk log10f c time_data contents s = Ok (cmds, s') ->
  exists (fc : Z) (z m : view) (s1 : store) (nf nb : nat)
         (img : list (list F32.t)),
    outsize c = Ok fc /\
    (let* data := fromfile contents in
     spectrogram hk data fc (bin_count c)) s = Ok ((z, m), s1) /\
    shape z = [nf; nb] /\ shape m = [nf; nb] /\
    cmds = plot_commands c time_data img /\
    length img = nb /\
    (forall b, (b < nb)%nat -> length (img !!! b) = nf) /\
    (forall f b, (f < nf)%nat -> (b < nb)%nat ->
       getf s1 m [f; b] = np_abs hk (getc s1 z [f; b]) /\
       (img !!! b) !!! f = db_of log10f (getf s1 m [f; b])).
Proof.
  unfold main, bind at 1, lift.
  destruct (outsize c) as [fc|e]; [|discriminate].
  unfold bind at 1. rewrite fromfile_run.
  rewrite (bind_spectrogram _ fc (bin_count c)
             (fun _ mag => let* img := decibels log10f (transpose mag) in
                fun s0 => Ok (plot_commands c time_data
                                (rows (getf s0 img) (shape img)), s0))).
  pose proof (fromfile_flat contents s) as Hflat.
  destruct (spectrogram hk _ fc (bin_count c) _) as [[[z m] s1]|e] eqn:Hsp;
    [|discriminate].
  intros Hrun. exists fc, z, m, s1.
  destruct (spectrogram_elements _ _ _ _ _ _ _ _ Hflat Hsp)
    as (nf & nb & Hz & Hm & Hmeq & Hfl & Hel).
  exists nf, nb. cbn [floats] in Hmeq, Hfl.
  set (magbuf := map (fun k => np_abs hk (decoded_at contents k))
                     (seq 0 (nf * nb))) in *.
  unfold bind in Hrun.
  rewrite (decibels_run log10f _ _ magbuf
             (fun k => magbuf !!! (k / nf + nb * (k mod nf))%nat) nb nf)
    in Hrun.
  2:{ rewrite Hfl, Hmeq. cbn [base transpose contiguous].
      now apply list_lookup_middle. }
  2:{ rewrite Hmeq. reflexivity. }
  2:{ rewrite Hmeq. apply elems_transposed. }
  injection Hrun as <- <-.
  eexists. split; [reflexivity|]. split; [exact Hsp|].
  split; [exact Hz|]. split; [exact Hm|]. split; [reflexivity|].
  cbn [shape contiguous]. unfold rows.
  split; [now rewrite length_map, length_seq|].
  split.
  - intros b Hb. rewrite map_seq_lookup_total by lia.
    now rewrite length_map, length_seq.
  - intros f b Hf Hb. destruct (Hel f b Hf Hb) as [Hc Hg].
    split; [now rewrite Hc, Hg|].
    rewrite map_seq_lookup_total by lia.
    rewrite (map_seq_lookup_total (fun k => getf _ _ [b; k])) by lia.
    rewrite Hg.
    unfold getf, position.
    cbn [contiguous base offset strides floats c_strides size_of
         fold_right dot].
    match goal with
    | |- ((?l ++ [?a; ?b0; ?d]) !!! _) !!! _ = _ =>
        change (l ++ [a; b0; d]) with (l ++ [a; b0] ++ [d]);
        rewrite (list_lookup_total_correct (l ++ [a; b0] ++ [d]) _ d)
    end.
    2:{ rewrite app_assoc. apply list_lookup_middle.
        rewrite length_app. cbn [length]. lia. }
    replace (0 + (nf * 1 * b + (1 * f + 0)))%nat with (b * nf + f)%nat by lia.
    rewrite map_seq_lookup_total by nia.
    assert ((b * nf + f) / nf = b)%nat as ->
      by (rewrite Nat.div_add_l, Nat.div_small by lia; lia).
    assert ((b * nf + f) mod nf = f)%nat as ->
      by (rewrite (Nat.add_comm (b * nf)), Nat.Div0.mod_add;
          apply Nat.mod_small; lia).
    unfold magbuf. rewrite map_seq_lookup_total by nia.
    do 3 f_equal. lia.
Qed.

End Image.

(** ** Finiteness of the displayed floor *)

Lemma twenty_mul_finite (r : F32.t) :
  below_2_7 r = true -> is_finite (F32.mul twenty32 r) = true.
Proof.
  destruct r as [s|s| |s m e]; cbn [below_2_7]; try discriminate;
    [reflexivity|].
  intros Hb. apply andb_prop in Hb as [Hd He].
  apply Z.leb_le in Hd, He.
  change twenty32 with (S754_finite false 10485760 (-19)).
  unfold F32.mul. cbn [SFmul].
  pose proof (binary_round_aux_cases F32.prec F32.emax (xorb false s)
                (Z.pos (10485760 * m)) (-19 + e) loc_Exact ltac:(lia)) as H.
  cbv zeta in H. destruct H as (_ & _ & Hfin). apply Hfin.
  all: pose proof (Zdigits2_mul 10485760 m) as Hmul;
    change (Zdigits2 (Z.pos 10485760)) with 24 in Hmul;
    cbn [Zdigits2] in *; unfold fexp, emin, F32.prec, F32.emax; lia.
Qed.

Lemma add_eps_zero : F32.add (S754_zero false) eps32 = eps32.
Proof. reflexivity. Qed.

(** ** The decibel image *)

(** C6: each value handed to the display is
    [20 * log10(magnitude[f][b] + 1e-6)] in float32 arithmetic; for a zero
    complex element the magnitude is [+0], the value is
    [20 * log10(1e-6)], and, [log10f] returning a finite float below 2^7
    in magnitude on positive finite arguments, that value is finite, not
    minus infinity. *)
Theorem decibel_floor (hk : hypot_kernel) (log10f : F32.t -> F32.t) (c : config)
    (time_data : list (F64.t * F64.t)) (contents : list F32.t)
    (s s' : store) (cmds : list plot_cmd) :
  (forall x, pos_finite x = true -> below_2_7 (log10f x) = true) ->
  main hk log10f c time_data contents s = Ok (cmds, s') ->
  exists (fc : Z) (z m : view) (s1 : store) (nf nb : nat)
         (args : imshow_args),
    outsize c = Ok fc /\
    (let* data := fromfile contents in
     spectrogram hk data fc (bin_count c)) s = Ok ((z, m), s1) /\
    shape z = [nf; nb] /\ shape m = [nf; nb] /\
    In (Imshow args) cmds /\
    forall f b : nat, (f < nf)%nat -> (b < nb)%nat ->
      let mag := getf s1 m [f; b] in
      let d := (im_data args !!! b) !!! f in
      d = F32.mul twenty32 (log10f (F32.add mag eps32)) /\
      (is_zero (re (getc s1 z [f; b])) = true ->
       is_zero (im (getc s1 z [f; b])) = true ->
       mag = S754_zero false /\
       d = F32.mul twenty32 (log10f eps32) /\
       is_finite d = true /\ d <> S754_infinity true).
Proof.
  intros Hlog Hrun.
  destruct (main_image log10f _ _ _ _ _ _ Hrun)
    as (fc & z & m & s1 & nf & nb & img & Hout & Hsp & Hz & Hm & -> & _ & _
        & Hel).
  exists fc, z, m, s1, nf, nb.
  eexists. split; [exact Hout|]. split; [exact Hsp|].
  split; [exact Hz|]. split; [exact Hm|].
  split; [unfold plot_commands; cbn [In]; do 7 right; left; reflexivity|].
  cbv zeta. cbn [im_data]. intros f b Hf Hb.
  destruct (Hel f b Hf Hb) as [Hmag Himg].
  split; [exact Himg|]. intros Hre Him.
  assert (H0 : getf s1 m [f; b] = S754_zero false).
  { rewrite Hmag. unfold np_abs.
    destruct (re (getc s1 z [f; b])); try discriminate.
    destruct (im (getc s1 z [f; b])); try discriminate. reflexivity. }
  rewrite Himg, H0. unfold db_of. rewrite add_eps_zero.
  assert (Hfin : is_finite (F32.mul twenty32 (log10f eps32)) = true)
    by (apply twenty_mul_finite, Hlog; reflexivity).
  split; [reflexivity|]. split; [reflexivity|]. split; [exact Hfin|].
  intros Heq. rewrite Heq in Hfin. discriminate.
Qed.

Lemma decibel_floor_witness :
  exists cmds s',
    main hypot_rounded minus_six config_tiny []
         [F32.one; F32.zero; F32.zero; F32.zero] empty_store = Ok (cmds, s') /\
    exists (fc : Z) (z m : view) (s1 : store) (nf nb : nat)
           (args : imshow_args),
      outsize config_tiny = Ok fc /\
      (let* data := fromfile [F32.one; F32.zero; F32.zero; F32.zero] in
       spectrogram hypot_rounded data fc (bin_count config_tiny)) empty_store
        = Ok ((z, m), s1) /\
      shape z = [nf; nb] /\ shape m = [nf; nb] /\
      In (Imshow args) cmds /\
      forall f b : nat, (f < nf)%nat -> (b < nb)%nat ->
        let mag := getf s1 m [f; b] in
        let d := (im_data args !!! b) !!! f in
        d = F32.mul twenty32 (minus_six (F32.add mag eps32)) /\
        (is_zero (re (getc s1 z [f; b])) = true ->
         is_zero (im (getc s1 z [f; b])) = true ->
         mag = S754_zero false /\
         d = F32.mul twenty32 (minus_six eps32) /\
         is_finite d = true /\ d <> S754_infinity true).
Proof.
  eexists _, _. split; [vm_compute; reflexivity|].
  eapply (decibel_floor hypot_rounded minus_six config_tiny []
           [F32.one; F32.zero; F32.zero; F32.zero] empty_store).
  - intros x _. reflexivity.
  - vm_compute. reflexivity.
Defined.

(** ** The heatmap call *)

(** C7: the script makes one [imshow] call.  Its data is the transposed
    decibel matrix, one row per bin and one column per frame, so that
    frequency runs along the vertical axis and time along the horizontal
    one; its extent is [0, duration, 0, sample_rate / 2]; its origin is
    "lower"; its colour map is one of the perceptually uniform maps; and
    the next call is a colour bar labelled "Magnitude (dB)". *)
Theorem heatmap_arguments (hk : hypot_kernel)
    (log10f : F32.t -> F32.t) (c : config)
    (time_data : list (F64.t * F64.t)) (contents : list F32.t)
    (s s' : store) (cmds : list plot_cmd) :
  main hk log10f c time_data contents s = Ok (cmds, s') ->
  exists (fc : Z) (z m : view) (s1 : store) (nf nb : nat)
         (args : imshow_args) (before after : list plot_cmd),
    outsize c = Ok fc /\
    (let* data := fromfile contents in
     spectrogram hk data fc (bin_count c)) s = Ok ((z, m), s1) /\
    shape m = [nf; nb] /\
    cmds = before ++ Imshow args :: Colorbar "Magnitude (dB)" :: after /\
    (forall a, ~ In (Imshow a) (before ++ after)) /\
    length (im_data args) = nb /\
    (forall b, (b < nb)%nat -> length (im_data args !!! b) = nf) /\
    (forall f b, (f < nf)%nat -> (b < nb)%nat ->
       (im_data args !!! b) !!! f = db_of log10f (getf s1 m [f; b])) /\
    im_extent args = [PyInt 0; PyFloat (duration c); PyInt 0;
                      PyFloat (F64.div (sample_rate c) (F64.of_Z 2))] /\
    im_origin args = "lower"%string /\
    In (im_cmap args) perceptually_uniform.
Proof.
  intros Hrun.
  destruct (main_image log10f _ _ _ _ _ _ Hrun)
    as (fc & z & m & s1 & nf & nb & img & Hout & Hsp & Hz & Hm & -> & Hlen
        & Hrow & Hel).
  exists fc, z, m, s1, nf, nb.
  unfold plot_commands.
  eexists _, [_; _; _; _; _; _; _], _.
  split; [exact Hout|]. split; [exact Hsp|]. split; [exact Hm|].
  split; [reflexivity|].
  split.
  { intros a Ha. cbn [app In] in Ha.
    repeat (destruct Ha as [Ha|Ha]; [discriminate|]). exact Ha. }
  cbn [im_data im_extent im_origin im_cmap].
  split; [exact Hlen|]. split; [exact Hrow|].
  split; [intros f b Hf Hb; now destruct (Hel f b Hf Hb)|].
  split; [reflexivity|]. split; [reflexivity|].
  unfold perceptually_uniform. cbn [In]. do 3 right. left. reflexivity.
Qed.

Lemma heatmap_arguments_witness :
  exists cmds s',
    main hypot_rounded minus_six config_tiny []
         [F32.one; F32.zero; F32.zero; F32.zero]
         empty_store = Ok (cmds, s') /\
    exists (fc : Z) (z m : view) (s1 : store) (nf nb : nat)
           (args : imshow_args) (before after : list plot_cmd),
      outsize config_tiny = Ok fc /\
      (let* data := fromfile [F32.one; F32.zero; F32.zero; F32.zero] in
       spectrogram hypot_rounded data fc (bin_count config_tiny)) empty_store
        = Ok ((z, m), s1) /\
      shape m = [nf; nb] /\
      cmds = before ++ Imshow args :: Colorbar "Magnitude (dB)" :: after /\
      (forall a, ~ In (Imshow a) (before ++ after)) /\
      length (im_data args) = nb /\
      (forall b, (b < nb)%nat -> length (im_data args !!! b) = nf) /\
      (forall f b, (f < nf)%nat -> (b < nb)%nat ->
         (im_data args !!! b) !!! f = db_of minus_six (getf s1 m [f; b])) /\
      im_extent args = [PyInt 0; PyFloat (duration config_tiny); PyInt 0;
                        PyFloat (F64.div (sample_rate config_tiny)
                                         (F64.of_Z 2))] /\
      im_origin args = "lower"%string /\
      In (im_cmap args) perceptually_uniform.
Proof.
  eexists _, _. split; [vm_compute; reflexivity|].
  eapply (heatmap_arguments hypot_rounded minus_six config_tiny []
           [F32.one; F32.zero; F32.zero; F32.zero] empty_store).
  vm_compute. reflexivity.
Defined.

(** With the constants of the script the frequency axis ends at 4000 Hz. *)
Lemma default_extent :
  F64.div (sample_rate default_config) (F64.of_Z 2) = F64.of_Z 4000 /\
  duration default_config = F64.of_Z 1.
Proof. split; vm_compute; reflexivity. Qed.

(** ** A worked example

    The file [1.0, 0.0] read as one frame of one bin: the element is
    [1 + 0j], its magnitude is 1.0, and the magnitude plus [1e-6] lies
    eight units in the last place above 1.0, so the displayed value is not
    exactly that of 1.0. *)
Example unit_pair :
  exists z m s',
    (let* data := fromfile [F32.one; F32.zero]
     in spectrogram hypot_rounded data 1 1)
      empty_store = Ok ((z, m), s') /\
    rows (getc s' z) (shape z) = [[Complex F32.one F32.zero]] /\
    rows (getf s' m) (shape m) = [[F32.one]] /\
    F32.add F32.one eps32 = S754_finite false 8388616 (-23).
Proof.
  eexists _, _, _. split; [vm_compute; reflexivity|].
  repeat split.
Qed.

(** * Further properties of the script *)

(** ** Every float of the file is used once *)

Lemma fix_unknown_dimension_size (n fc bc F B : Z) :
  0 <= n ->
  fix_unknown_dimension n [fc; bc; 2] = Ok [F; B; 2] ->
  0 <= F /\ 0 <= B /\ F * B * 2 = n.
Proof.
  intros Hn. unfold fix_unknown_dimension. cbn [scan_dims].
  destruct (Z.ltb_spec fc 0), (Z.ltb_spec bc 0);
    cbn [Z.ltb Z.compare rbind]; try discriminate.
  - destruct (1 * bc * 2 =? 0) eqn:E0; [discriminate|].
    destruct (n mod (1 * bc * 2) =? 0) eqn:Em; [|discriminate].
    cbn. intros [= <- <-].
    apply Z.eqb_neq in E0. apply Z.eqb_eq in Em.
    pose proof (Z.div_exact n (1 * bc * 2) E0) as Hex.
    apply Hex in Em.
    assert (0 <= n / (1 * bc * 2)) by (apply Z.div_pos; lia).
    repeat split; try lia.
  - destruct (1 * fc * 2 =? 0) eqn:E0; [discriminate|].
    destruct (n mod (1 * fc * 2) =? 0) eqn:Em; [|discriminate].
    cbn. intros [= <- <-].
    apply Z.eqb_neq in E0. apply Z.eqb_eq in Em.
    pose proof (Z.div_exact n (1 * fc * 2) E0) as Hex.
    apply Hex in Em.
    assert (0 <= n / (1 * fc * 2)) by (apply Z.div_pos; lia).
    repeat split; try lia.
  - destruct (n =? 1 * fc * bc * 2) eqn:E; [|discriminate].
    intros [= <- <-]. apply Z.eqb_eq in E. lia.
Qed.

Lemma decode_elements (s s' : store) (data z : view)
    (buf : list F32.t) (frame_count bin_count : Z) :
  flat_array s data buf ->
  decode data frame_count bin_count s = Ok (z, s') ->
  exists nf nb : nat,
    shape z = [nf; nb] /\
    (2 * (nf * nb) = length buf)%nat /\
    forall f b : nat, (f < nf)%nat -> (b < nb)%nat ->
      getc s' z [f; b] = decoded_at buf (f * nb + b).
Proof.
  intros Hflat Hrun.
  destruct (fix_unknown_dimension (Z.of_nat (length buf))
              [frame_count; bin_count; 2]) as [l|e] eqn:Hfix.
  2:{ rewrite (decode_raises _ _ _ _ _ _ Hflat Hfix) in Hrun. discriminate. }
  destruct (fix_unknown_dimension_shape _ _ _ _ Hfix) as (F & B & ->).
  destruct (fix_unknown_dimension_size _ _ _ _ _ (Nat2Z.is_nonneg _) Hfix)
    as (HF & HB & Hsize).
  assert (Hlen : (2 * (Z.to_nat F * Z.to_nat B) = length buf)%nat).
  { apply Nat2Z.inj. rewrite !Nat2Z.inj_mul, !Z2Nat.id by lia. lia. }
  exists (Z.to_nat F), (Z.to_nat B).
  pose proof (decode_run _ _ _ _ _ _ _ Hflat Hfix) as Hrun'.
  cbv zeta in Hrun'. rewrite Hrun' in Hrun. injection Hrun as <- <-.
  split; [reflexivity|]. split; [exact Hlen|].
  intros f b Hf Hb.
  now destruct (decoded_element _ _ _ _ _ _ _ _ _ f b Hflat Hfix Hrun' Hf Hb).
Qed.

(** Whatever the frame and bin counts, given or inferred, a successful
    [decode] returns a two-dimensional array with exactly half as many
    elements as the file has floats, and element [(f, b)] is built from
    the floats at [2*(f*nb + b)] and the next index: no float is dropped,
    repeated or read past the end. *)
Theorem decode_uses_every_float (s s' : store) (data z : view)
    (buf : list F32.t) (frame_count bin_count : Z) :
  flat_array s data buf ->
  decode data frame_count bin_count s = Ok (z, s') ->
  exists nf nb : nat,
    shape z = [nf; nb] /\
    (2 * (nf * nb) = length buf)%nat /\
    forall f b : nat, (f < nf)%nat -> (b < nb)%nat ->
      exists x y,
        buf !! (2 * (f * nb + b))%nat = Some x /\
        buf !! (2 * (f * nb + b) + 1)%nat = Some y /\
        getc s' z [f; b] =
          C64.add (C64.of_real x) (C64.mul C64.j (C64.of_real y)).
Proof.
  intros Hflat Hrun.
  destruct (decode_elements _ _ _ _ _ _ _ Hflat Hrun)
    as (nf & nb & Hz & Hlen & Hel).
  exists nf, nb. split; [exact Hz|]. split; [exact Hlen|].
  intros f b Hf Hb.
  pose proof (flat_index_lt _ _ _ _ Hf Hb) as Hk.
  destruct (decoded_at_lookup buf (f * nb + b) ltac:(lia))
    as (x & y & Hx & Hy & Hdec).
  exists x, y. split; [exact Hx|]. split; [exact Hy|].
  rewrite (Hel f b Hf Hb). exact Hdec.
Qed.

Lemma decode_uses_every_float_witness :
  exists z s',
    decode (contiguous 0 [4%nat]) (-1) 1
           (Store [[F32.one; F32.zero; F32.of_Z2 3 0; F32.of_Z2 (-4) 0]] [])
      = Ok (z, s') /\
    exists nf nb : nat,
      shape z = [nf; nb] /\
      (2 * (nf * nb) =
       length [F32.one; F32.zero; F32.of_Z2 3 0; F32.of_Z2 (-4) 0])%nat /\
      forall f b : nat, (f < nf)%nat -> (b < nb)%nat ->
        exists x y,
          [F32.one; F32.zero; F32.of_Z2 3 0; F32.of_Z2 (-4) 0]
            !! (2 * (f * nb + b))%nat = Some x /\
          [F32.one; F32.zero; F32.of_Z2 3 0; F32.of_Z2 (-4) 0]
            !! (2 * (f * nb + b) + 1)%nat = Some y /\
          getc s' z [f; b] =
            C64.add (C64.of_real x) (C64.mul C64.j (C64.of_real y)).
Proof.
  eexists _, _. split; [vm_compute; reflexivity|].
  eapply (decode_uses_every_float
            (Store [[F32.one; F32.zero; F32.of_Z2 3 0; F32.of_Z2 (-4) 0]] [])
            _ (contiguous 0 [4%nat]) _
            [F32.one; F32.zero; F32.of_Z2 3 0; F32.of_Z2 (-4) 0] (-1) 1).
  - repeat split.
  - vm_compute. reflexivity.
Defined.

(** ** Degenerate and doubly negative dimensions *)

(** When both counts are negative, which the script reaches with a signal
    much shorter than its window and a negative [fftsize], [reshape]
    refuses to infer two dimensions: the error is the one about unknown
    dimensions, not the size mismatch, whatever the file holds.  The
    counts are dimensions, within the machine word. *)
Theorem decode_two_negative (s : store) (data : view) (buf : list F32.t)
    (frame_count bin_count : Z) :
  flat_array s data buf ->
  intp frame_count -> intp bin_count ->
  frame_count < 0 -> bin_count < 0 ->
  decode data frame_count bin_count s = Raise OneUnknownDimension.
Proof.
  intros Hflat _ _ Hf Hb. apply (decode_raises _ _ _ _ _ _ Hflat).
  unfold fix_unknown_dimension. cbn [scan_dims].
  destruct (Z.ltb_spec frame_count 0); [|lia].
  destruct (Z.ltb_spec bin_count 0); [|lia]. reflexivity.
Qed.

Lemma decode_two_negative_witness :
  decode (contiguous 0 [2%nat]) (-1) (-1)
         (Store [[F32.one; F32.zero]] []) = Raise OneUnknownDimension.
Proof.
  apply (decode_two_negative (Store [[F32.one; F32.zero]] [])
           (contiguous 0 [2%nat]) [F32.one; F32.zero] (-1) (-1)).
  - repeat split.
  - unfold intp. lia.
  - unfold intp. lia.
  - lia.
  - lia.
Defined.

(** A count of zero, as [fftsize] 0 or 1 gives for the bins and a signal
    just shorter than the window gives for the frames: only the empty
    file decodes, to an array without elements, and only when the other
    count is not negative; every other file raises the size mismatch.
    The counts are dimensions, within the machine word, and small enough
    for the bytes of a row of [float32] pairs, eight per count, to be
    counted in a word: NumPy measures an array by its extents other than
    zero and refuses one beyond that. *)
Theorem decode_zero_extent (s : store) (data : view) (buf : list F32.t)
    (frame_count bin_count : Z) :
  flat_array s data buf ->
  intp frame_count -> intp bin_count ->
  8 * frame_count < 2 ^ 63 -> 8 * bin_count < 2 ^ 63 ->
  frame_count = 0 \/ bin_count = 0 ->
  match decode data frame_count bin_count s with
  | Ok (z, _) =>
      buf = [] /\ 0 <= frame_count /\ 0 <= bin_count /\
      shape z = [Z.to_nat frame_count; Z.to_nat bin_count]
  | Raise e =>
      e = ShapeMismatch /\ (buf <> [] \/ frame_count < 0 \/ bin_count < 0)
  end.
Proof.
  intros Hflat _ _ _ _ Hzero.
  destruct (fix_unknown_dimension (Z.of_nat (length buf))
              [frame_count; bin_count; 2]) as [l|e] eqn:Hfix.
  - destruct (fix_unknown_dimension_shape _ _ _ _ Hfix) as (F & B & ->).
    rewrite (decode_run _ _ _ _ _ _ _ Hflat Hfix). cbn [shape contiguous].
    revert Hfix. unfold fix_unknown_dimension. cbn [scan_dims].
    destruct (Z.ltb_spec frame_count 0), (Z.ltb_spec bin_count 0);
      cbn [Z.ltb Z.compare rbind]; try discriminate.
    + destruct (1 * bin_count * 2 =? 0) eqn:E0; [discriminate|].
      apply Z.eqb_neq in E0. lia.
    + destruct (1 * frame_count * 2 =? 0) eqn:E0; [discriminate|].
      apply Z.eqb_neq in E0. lia.
    + destruct (Z.eqb_spec (Z.of_nat (length buf))
                  (1 * frame_count * bin_count * 2)) as [E|E];
        [|discriminate].
      intros [= <- <-]. repeat split; try lia.
      destruct buf; [reflexivity | cbn [length] in E; nia].
  - rewrite (decode_raises _ _ _ _ _ _ Hflat Hfix).
    revert Hfix. unfold fix_unknown_dimension. cbn [scan_dims].
    destruct (Z.ltb_spec frame_count 0), (Z.ltb_spec bin_count 0);
      cbn [Z.ltb Z.compare rbind].
    + lia.
    + destruct ((1 * bin_count * 2 =? 0) || _); [|discriminate].
      intros [= <-]. split; [reflexivity|]. lia.
    + destruct ((1 * frame_count * 2 =? 0) || _); [|discriminate].
      intros [= <-]. split; [reflexivity|]. lia.
    + destruct (Z.eqb_spec (Z.of_nat (length buf))
                  (1 * frame_count * bin_count * 2)) as [E|E];
        [discriminate|].
      intros [= <-]. split; [reflexivity|]. left.
      intros ->. cbn [length] in E. nia.
Qed.

Lemma decode_zero_extent_witness :
  match decode (contiguous 0 [0%nat]) 3 0 (Store [[]] []) with
  | Ok (z, _) =>
      @nil F32.t = [] /\ 0 <= 3 /\ 0 <= 0 /\
      shape z = [Z.to_nat 3; Z.to_nat 0]
  | Raise e =>
      e = ShapeMismatch /\ (@nil F32.t <> [] \/ 3 < 0 \/ 0 < 0)
  end.
Proof.
  apply (decode_zero_extent (Store [[]] []) (contiguous 0 [0%nat]) [] 3 0).
  - repeat split.
  - unfold intp. lia.
  - unfold intp. lia.
  - lia.
  - lia.
  - right. reflexivity.
Defined.

(** ** Frames inside the signal *)

(** For a positive [hop], [outsize] is the number of windows of [win]
    samples, [hop] apart, that fit in the signal: the last one ends at or
    before the last sample and one more would overrun it.  There is at
    least one frame exactly when the signal is no shorter than the
    window. *)
Theorem frames_fit (c : config) (n fc : Z) :
  signal_len c = Ok n -> outsize c = Ok fc -> 0 < hop c ->
  (fc - 1) * hop c + win c <= n < fc * hop c + win c /\
  (1 <= fc <-> win c <= n).
Proof.
  intros Hn Hout Hhop. unfold outsize in Hout. rewrite Hn in Hout.
  cbn [rbind] in Hout. unfold py_floordiv in Hout.
  destruct (Z.eqb_spec (hop c) 0); [lia|]. cbn [rbind] in Hout.
  injection Hout as <-.
  pose proof (Z.div_mod (n - win c) (hop c) ltac:(lia)) as Hdm.
  pose proof (Z.mod_pos_bound (n - win c) (hop c) Hhop) as Hm.
  split; [nia|]. split; intros H; nia.
Qed.

Lemma frames_fit_witness :
  (61 - 1) * hop default_config + win default_config <= 8000
     < 61 * hop default_config + win default_config /\
  (1 <= 61 <-> win default_config <= 8000).
Proof.
  apply (frames_fit default_config 8000 61).
  - vm_compute. reflexivity.
  - vm_compute. reflexivity.
  - reflexivity.
Defined.

(** ** Nothing is overwritten *)

Lemma extends_refl (s : store) : extends s s.
Proof. split; reflexivity. Qed.

Lemma extends_trans (s1 s2 s3 : store) :
  extends s1 s2 -> extends s2 s3 -> extends s1 s3.
Proof. intros [H1 H2] [H3 H4]. split; etransitivity; eassumption. Qed.

Lemma allocating_ret {A} (a : A) : allocating (ret a).
Proof. intros s a' s' [= _ <-]. apply extends_refl. Qed.

Lemma allocating_lift {A} (r : result A) : allocating (lift r).
Proof.
  intros s a s'. unfold lift. destruct r; [|discriminate].
  intros [= _ <-]. apply extends_refl.
Qed.

Lemma allocating_raise {A} (e : exn) : allocating (@raise A e).
Proof. intros s a s'. discriminate. Qed.

Lemma allocating_bind {A B} (m : M A) (k : A -> M B) :
  allocating m -> (forall a, allocating (k a)) -> allocating (bind m k).
Proof.
  intros Hm Hk s b s'. unfold bind.
  destruct (m s) as [[a s1]|e] eqn:E; [|discriminate].
  intros Hrun. eapply extends_trans; [eapply Hm | eapply Hk]; eassumption.
Qed.

Lemma allocating_alloc_f (b : list F32.t) : allocating (alloc_f b).
Proof.
  intros s a s' [= _ <-]. split; cbn [floats complexes];
    [now apply prefix_app_r | reflexivity].
Qed.

Lemma allocating_alloc_c (b : list complex64) : allocating (alloc_c b).
Proof.
  intros s a s' [= _ <-]. split; cbn [floats complexes];
    [reflexivity | now apply prefix_app_r].
Qed.

Lemma allocating_at_store {A} (m : store -> M A) :
  (forall s0, allocating (m s0)) -> allocating (fun s => m s s).
Proof. intros Hm s a s' Hrun. exact (Hm s s a s' Hrun). Qed.

Ltac allocating_step :=
  first [ apply allocating_bind; [|intros ?]
        | apply allocating_ret | apply allocating_lift
        | apply allocating_raise | apply allocating_alloc_f
        | apply allocating_alloc_c ].

Lemma allocating_fromfile (contents : list F32.t) :
  allocating (fromfile contents).
Proof. unfold fromfile. repeat allocating_step. Qed.

Lemma allocating_reshape (v : view) (dims : list Z) :
  allocating (reshape v dims).
Proof.
  unfold reshape. allocating_step; [allocating_step|].
  destruct (decide _); [allocating_step|].
  apply (allocating_at_store
           (fun s0 => let* a0 := alloc_f (elems (floats s0 !!! base v) v) in
                      ret (contiguous a0 (map Z.to_nat a)))).
  intros s0. repeat allocating_step.
Qed.

Lemma allocating_last_axis (v : view) (k : nat) : allocating (last_axis v k).
Proof.
  unfold last_axis. destruct (last (shape v)), (last (strides v));
    try allocating_step.
  destruct (k <? n)%nat; allocating_step.
Qed.

Lemma allocating_map_ff (g : F32.t -> F32.t) (v : view) :
  allocating (map_ff g v).
Proof.
  unfold map_ff.
  apply (allocating_at_store
           (fun s0 => let* a := alloc_f (map g (elems (floats s0 !!! base v) v)) in
                      ret (contiguous a (shape v)))).
  intros s0. repeat allocating_step.
Qed.

Lemma allocating_map_fc (g : F32.t -> complex64) (v : view) :
  allocating (map_fc g v).
Proof.
  unfold map_fc.
  apply (allocating_at_store
           (fun s0 => let* a := alloc_c (map g (elems (floats s0 !!! base v) v)) in
                      ret (contiguous a (shape v)))).
  intros s0. repeat allocating_step.
Qed.

Lemma allocating_map_cf (g : complex64 -> F32.t) (v : view) :
  allocating (map_cf g v).
Proof.
  unfold map_cf.
  apply (allocating_at_store
           (fun s0 => let* a := alloc_f (map g (elems (complexes s0 !!! base v) v)) in
                      ret (contiguous a (shape v)))).
  intros s0. repeat allocating_step.
Qed.

Lemma allocating_zip_fc (g : F32.t -> complex64 -> complex64) (v w : view) :
  allocating (zip_fc g v w).
Proof.
  unfold zip_fc. allocating_step; [allocating_step|].
  apply (allocating_at_store
           (fun s0 =>
              let* a0 := alloc_c
                (zip_with g (elems (floats s0 !!! base v) (broadcast_to v a))
                            (elems (complexes s0 !!! base w) (broadcast_to w a))) in
              ret (contiguous a0 a))).
  intros s0. repeat allocating_step.
Qed.

Lemma allocating_decode (data : view) (fc bc : Z) :
  allocating (decode data fc bc).
Proof.
  unfold decode, complex_times, float_plus_complex.
  apply allocating_bind; [apply allocating_reshape | intros d].
  apply allocating_bind; [apply allocating_last_axis | intros r].
  apply allocating_bind; [apply allocating_last_axis | intros i].
  apply allocating_bind; [apply allocating_map_fc | intros t].
  apply allocating_zip_fc.
Qed.

Lemma allocating_main {hk : hypot_kernel} (log10f : F32.t -> F32.t) (c : config)
    (time_data : list (F64.t * F64.t)) (contents : list F32.t) :
  allocating (main hk log10f c time_data contents).
Proof.
  unfold main, magnitude, decibels.
  apply allocating_bind; [apply allocating_lift | intros o].
  apply allocating_bind; [apply allocating_fromfile | intros d].
  apply allocating_bind; [apply allocating_decode | intros z].
  apply allocating_bind; [apply allocating_map_cf | intros m].
  apply allocating_bind.
  - apply allocating_bind; [apply allocating_map_ff | intros t].
    apply allocating_bind; [apply allocating_map_ff | intros t'].
    apply allocating_map_ff.
  - intros img s a s' [= _ <-]. apply extends_refl.
Qed.

(** The script only ever allocates: when it returns, every buffer that
    existed before is still there with the same contents, and the floats
    read from the file sit unchanged in the buffer [np.fromfile] made for
    them.  This holds for every configuration and file, inferred
    dimensions included. *)
Theorem main_keeps_buffers (hk : hypot_kernel)
    (log10f : F32.t -> F32.t) (c : config)
    (time_data : list (F64.t * F64.t)) (contents : list F32.t)
    (s s' : store) (cmds : list plot_cmd) :
  main hk log10f c time_data contents s = Ok (cmds, s') ->
  (forall a b, floats s !! a = Some b -> floats s' !! a = Some b) /\
  (forall a b, complexes s !! a = Some b -> complexes s' !! a = Some b) /\
  floats s' !! length (floats s) = Some contents.
Proof.
  intros Hrun.
  destruct (allocating_main _ _ _ _ _ _ _ Hrun) as [[fs Hf] [cs Hc]].
  split; [intros a b Hab; rewrite Hf; now apply lookup_app_l_Some|].
  split; [intros a b Hab; rewrite Hc; now apply lookup_app_l_Some|].
  revert Hrun. unfold main, bind at 1, lift.
  destruct (outsize c) as [fc|e]; [|discriminate].
  unfold bind at 1. rewrite fromfile_run.
  match goal with
  | |- ?k ?d ?s1 = _ -> _ =>
      intros Hrest;
      assert (Hext : extends s1 s')
  end.
  { revert Hrest. apply allocating_bind; [apply allocating_decode|intros z].
    unfold magnitude, decibels.
    apply allocating_bind; [apply allocating_map_cf | intros m].
    apply allocating_bind.
    - apply allocating_bind; [apply allocating_map_ff | intros t].
      apply allocating_bind; [apply allocating_map_ff | intros t'].
      apply allocating_map_ff.
    - intros img s0 a s0' [= _ <-]. apply extends_refl. }
  destruct Hext as [[fs' Hf'] _]. cbn [floats] in Hf'. rewrite Hf'.
  apply lookup_app_l_Some. now apply list_lookup_middle.
Qed.

Lemma main_keeps_buffers_witness :
  exists cmds s',
    main hypot_rounded minus_six config_tiny []
         [F32.one; F32.zero; F32.zero; F32.zero]
         (Store [[F32.one]] [[Complex F32.one F32.one]]) = Ok (cmds, s') /\
    (forall a b, floats (Store [[F32.one]] [[Complex F32.one F32.one]]) !! a
                 = Some b -> floats s' !! a = Some b) /\
    (forall a b, complexes (Store [[F32.one]] [[Complex F32.one F32.one]]) !! a
                 = Some b -> complexes s' !! a = Some b) /\
    floats s' !! length (floats (Store [[F32.one]] [[Complex F32.one F32.one]]))
      = Some [F32.one; F32.zero; F32.zero; F32.zero].
Proof.
  eexists _, _. split; [vm_compute; reflexivity|].
  eapply (main_keeps_buffers hypot_rounded minus_six config_tiny []
            [F32.one; F32.zero; F32.zero; F32.zero]
            (Store [[F32.one]] [[Complex F32.one F32.one]])).
  vm_compute. reflexivity.
Defined.

(** ** The pairs of an accepted table *)

Lemma main_run (hk : hypot_kernel) (log10f : F32.t -> F32.t) (c : config)
    (time_data : list (F64.t * F64.t)) (contents : list F32.t) (s : store)
    (fc F B : Z) :
  outsize c = Ok fc ->
  fix_unknown_dimension (Z.of_nat (length contents)) [fc; bin_count c; 2]
    = Ok [F; B; 2] ->
  exists img s',
    main hk log10f c time_data contents s =
    Ok (plot_commands c time_data img, s').
Proof.
  intros Hout Hfix. unfold main, bind at 1, lift. rewrite Hout.
  unfold bind at 1. rewrite fromfile_run.
  rewrite (bind_spectrogram _ fc (bin_count c)
             (fun _ mag => let* img := decibels log10f (transpose mag) in
                fun s0 => Ok (plot_commands c time_data
                                (rows (getf s0 img) (shape img)), s0))).
  pose proof (fromfile_flat contents s) as Hflat.
  rewrite (spectrogram_run hk _ _ _ _ _ _ _ Hflat Hfix). cbn [floats complexes].
  unfold bind.
  erewrite (decibels_run log10f _ _ _ _ (Z.to_nat B) (Z.to_nat F)).
  - eexists _, _. reflexivity.
  - cbn [base transpose contiguous floats]. now apply list_lookup_middle.
  - reflexivity.
  - apply elems_transposed.
Qed.

Lemma main_raises {hk : hypot_kernel} (log10f : F32.t -> F32.t) (c : config)
    (time_data : list (F64.t * F64.t)) (contents : list F32.t) (s : store)
    (fc : Z) (e : exn) :
  outsize c = Ok fc ->
  fix_unknown_dimension (Z.of_nat (length contents)) [fc; bin_count c; 2]
    = Raise e ->
  main hk log10f c time_data contents s = Raise e.
Proof.
  intros Hout Hfix. unfold main, bind at 1, lift. rewrite Hout.
  unfold bind at 1. rewrite fromfile_run. unfold bind at 1.
  now rewrite (decode_raises _ _ _ _ _ _ (fromfile_flat contents s) Hfix).
Qed.

(** On the pairs of a table that line 27 accepts: the file must have the
    length the shape asks for. *)
Lemma main_on_exact_file {hk : hypot_kernel}
    (log10f : F32.t -> F32.t) (c : config)
    (time_data : list (F64.t * F64.t)) (contents : list F32.t) (s : store)
    (fc : Z) :
  outsize c = Ok fc -> 1 <= fc -> 1 <= bin_count c ->
  (Z.of_nat (length contents) <> fc * bin_count c * 2 ->
   main hk log10f c time_data contents s = Raise ShapeMismatch) /\
  (Z.of_nat (length contents) = fc * bin_count c * 2 ->
   exists img s',
     main hk log10f c time_data contents s =
       Ok (plot_commands c time_data img, s') /\
     length (plot_commands c time_data img) = 14%nat /\
     last (plot_commands c time_data img) = Some (Savefig "stft-plot.png") /\
     length img = Z.to_nat (bin_count c) /\
     Forall (fun row => length row = Z.to_nat fc) img).
Proof.
  intros Hout Hfc Hbc.
  pose proof (fix_unknown_dimension_known (Z.of_nat (length contents)) fc
                (bin_count c) ltac:(lia) ltac:(lia)) as Hfix.
  split; intros Hlen.
  - apply (main_raises _ _ _ _ _ fc _ Hout). rewrite Hfix.
    destruct (Z.eqb_spec (Z.of_nat (length contents))
                (fc * bin_count c * 2)); [contradiction|reflexivity].
  - rewrite (proj2 (Z.eqb_eq _ _) Hlen) in Hfix.
    destruct (main_run hk log10f c time_data contents s _ _ _ Hout Hfix)
      as (img & s' & Hrun).
    exists img, s'. split; [exact Hrun|].
    split; [reflexivity|]. split; [reflexivity|].
    destruct (main_image log10f _ _ _ _ _ _ Hrun)
      as (fc' & z & m & s1 & nf & nb & img' & Hout' & Hsp & Hz & Hm & Hcmds
          & Hli & Hrow & _).
    assert (img' = img) as -> by (unfold plot_commands in Hcmds; congruence).
    rewrite Hout in Hout'. injection Hout' as <-.
    unfold bind in Hsp. rewrite fromfile_run in Hsp.
    rewrite (spectrogram_run hk _ _ _ _ _ _ _ (fromfile_flat contents s) Hfix)
      in Hsp.
    injection Hsp as <- <- <-. cbn [shape contiguous] in Hz.
    injection Hz as <- <-. split; [exact Hli|].
    apply Forall_lookup_2. intros b row Hb.
    pose proof (lookup_lt_Some _ _ _ Hb) as Hlt.
    rewrite <- (Hrow b ltac:(lia)).
    now rewrite (list_lookup_total_correct _ _ _ Hb).
Qed.

(** ** Parameters that stop the script before any file is read *)

(** The frame count is computed first.  A product [sample_rate * duration]
    that is NaN or infinite makes [int] raise, and a zero [hop] makes the
    floor division raise; the script then stops with that exception
    whatever the two files hold. *)
Theorem main_parameter_errors (hk : hypot_kernel)
    (log10f : F32.t -> F32.t) (c : config)
    (time_data : list (F64.t * F64.t)) (contents : list F32.t) (s : store) :
  (F64.mul (sample_rate c) (duration c) = S754_nan ->
   main hk log10f c time_data contents s = Raise ValueError_nan_to_int) /\
  (forall sg, F64.mul (sample_rate c) (duration c) = S754_infinity sg ->
   main hk log10f c time_data contents s = Raise OverflowError_inf_to_int) /\
  (is_finite (F64.mul (sample_rate c) (duration c)) = true -> hop c = 0 ->
   main hk log10f c time_data contents s = Raise ZeroDivisionError).
Proof.
  unfold main, bind at 1, lift, outsize, signal_len.
  split; [|split].
  - intros ->. reflexivity.
  - intros sg ->. reflexivity.
  - intros Hfin Hhop. destruct (py_int_total _ Hfin) as [n ->].
    cbn [rbind]. unfold py_floordiv. rewrite Hhop. reflexivity.
Qed.

Lemma main_parameter_errors_witness :
  main hypot_rounded minus_six config_nan [] [] empty_store
    = Raise ValueError_nan_to_int /\
  main hypot_rounded minus_six config_overflow [] [] empty_store
    = Raise OverflowError_inf_to_int /\
  main hypot_rounded minus_six config_zero_hop [] [] empty_store
    = Raise ZeroDivisionError.
Proof.
  split; [|split].
  - apply (main_parameter_errors hypot_rounded minus_six config_nan
             [] [] empty_store).
    reflexivity.
  - apply (proj1 (proj2 (main_parameter_errors hypot_rounded minus_six
                           config_overflow [] [] empty_store)) false).
    vm_compute. reflexivity.
  - apply (main_parameter_errors hypot_rounded minus_six config_zero_hop
             [] [] empty_store).
    + reflexivity.
    + reflexivity.
Defined.

(** ** The argument of the logarithm *)

Lemma Zdigits2_positive (a : Z) : 0 <= a -> (1 <= Zdigits2 a <-> 1 <= a).
Proof.
  destruct a as [|a|a]; cbn [Zdigits2]; lia.
Qed.

Lemma shr_1_digits (mrs : shr_record) :
  0 <= shr_m mrs ->
  Zdigits2 (shr_m (shr_1 mrs)) = Z.max 0 (Zdigits2 (shr_m mrs) - 1).
Proof.
  destruct mrs as [m r s]. cbn [shr_m].
  destruct m as [|[p|p|]|p]; cbn [shr_1 shr_m Zdigits2 digits2_pos]; lia.
Qed.

Lemma iter_shr_1_digits (p : positive) (mrs : shr_record) :
  0 <= shr_m mrs ->
  Zdigits2 (shr_m (SpecFloat.iter_pos shr_1 p mrs)) =
  Z.max 0 (Zdigits2 (shr_m mrs) - Z.pos p).
Proof.
  revert mrs. induction p as [p IH|p IH|]; intros mrs Hm;
    cbn [SpecFloat.iter_pos].
  - pose proof (shr_1_bounds mrs Hm) as H1.
    pose proof (iter_shr_1_bounds p _ (proj1 H1)) as H2.
    rewrite IH, IH, shr_1_digits by lia. lia.
  - pose proof (iter_shr_1_bounds p _ Hm) as H2.
    rewrite IH, IH by lia. lia.
  - now apply shr_1_digits.
Qed.

Lemma shr_positive (mrs : shr_record) (e n : Z) :
  1 <= shr_m mrs -> n <= Zdigits2 (shr_m mrs) - 1 ->
  1 <= shr_m (fst (shr mrs e n)).
Proof.
  intros Hm Hn. destruct n as [|p|p]; cbn [shr fst]; try lia.
  pose proof (iter_shr_1_bounds p mrs ltac:(lia)) as Hb.
  apply Zdigits2_positive; [lia|].
  rewrite iter_shr_1_digits by lia. lia.
Qed.

(** Rounding a positive mantissa whose value is at least the smallest
    subnormal never gives a zero. *)
Lemma binary_round_aux_positive (sx : bool) (mx ex : Z) (lx : location) :
  1 <= mx ->
  emin F32.prec F32.emax + 1 <= Zdigits2 mx + ex ->
  match binary_round_aux F32.prec F32.emax sx mx ex lx with
  | S754_finite s _ _ | S754_infinity s => s = sx
  | _ => False
  end.
Proof.
  intros Hmx Hd. unfold binary_round_aux, shr_fexp.
  destruct (shr (shr_record_of_loc mx lx) ex
              (fexp F32.prec F32.emax (Zdigits2 mx + ex) - ex))
    as [mrs' e'] eqn:E1.
  pose proof (shr_bounds (shr_record_of_loc mx lx) ex
                (fexp F32.prec F32.emax (Zdigits2 mx + ex) - ex)) as H1.
  pose proof (shr_positive (shr_record_of_loc mx lx) ex
                (fexp F32.prec F32.emax (Zdigits2 mx + ex) - ex)) as P1.
  rewrite shr_record_of_loc_m, E1 in H1, P1. cbn [fst snd] in H1, P1.
  specialize (H1 ltac:(lia)). destruct H1 as [_ He'].
  assert (Hm' : 1 <= shr_m mrs').
  { apply P1; [lia|]. unfold fexp, emin, F32.prec, F32.emax in *. lia. }
  set (m1 := round_nearest_even (shr_m mrs') (loc_of_shr_record mrs')).
  pose proof (round_nearest_even_bounds (shr_m mrs') (loc_of_shr_record mrs'))
    as Hm1. fold m1 in Hm1.
  destruct (shr (shr_record_of_loc m1 loc_Exact) e'
              (fexp F32.prec F32.emax (Zdigits2 m1 + e') - e'))
    as [mrs'' e''] eqn:E2.
  pose proof (shr_positive (shr_record_of_loc m1 loc_Exact) e'
                (fexp F32.prec F32.emax (Zdigits2 m1 + e') - e')) as P2.
  rewrite shr_record_of_loc_m, E2 in P2. cbn [fst] in P2.
  assert (Hd1 : 1 <= Zdigits2 m1) by (apply Zdigits2_positive; lia).
  assert (Hm'' : 1 <= shr_m mrs'').
  { apply P2; [lia|]. unfold fexp, emin, F32.prec, F32.emax in *. lia. }
  destruct (shr_m mrs'') as [|m|m]; try lia.
  destruct (e'' <=? F32.emax - F32.prec); reflexivity.
Qed.

Lemma digits2_iter_xO (m d : positive) :
  Z.pos (digits2_pos (Pos.iter xO m d)) = Z.pos (digits2_pos m) + Z.pos d.
Proof.
  induction d as [|d IH] using Pos.peano_ind.
  - cbn [Pos.iter digits2_pos]. lia.
  - rewrite Pos.iter_succ. cbn [digits2_pos]. lia.
Qed.

Lemma shl_align_digits (m : positive) (e e0 : Z) :
  Z.pos (digits2_pos (fst (shl_align m e e0))) + snd (shl_align m e e0) =
  Z.pos (digits2_pos m) + e.
Proof.
  unfold shl_align. destruct (e0 - e) as [|d|d] eqn:E; cbn [fst snd];
    try reflexivity.
  rewrite digits2_iter_xO. lia.
Qed.

Lemma shl_align_fst_digits (m : positive) (e e0 : Z) :
  e0 <= e ->
  Z.pos (digits2_pos (fst (shl_align m e e0))) = Z.pos (digits2_pos m) + (e - e0).
Proof.
  intros He. unfold shl_align. destruct (e0 - e) as [|d|d] eqn:E;
    cbn [fst]; try lia.
  rewrite digits2_iter_xO. lia.
Qed.

(** Adding [1e-6] to a float that is not NaN and not below zero gives a
    float strictly above zero. *)
Lemma add_eps_positive (r : F32.t) :
  is_nan r = false -> sign_bit r = false \/ is_zero r = true ->
  SFltb (S754_zero false) (F32.add r eps32) = true.
Proof.
  intros Hn Hs.
  destruct r as [s|s| |s m e]; try discriminate.
  - reflexivity.
  - destruct Hs as [Hs|Hs]; [|discriminate]. cbn in Hs. subst s. reflexivity.
  - destruct Hs as [Hs|Hs]; [|discriminate]. cbn in Hs. subst s.
    change eps32 with (S754_finite false 8796093 (-43)).
    unfold F32.add. cbn [SFadd cond_Zopp].
    set (ez := Z.min e (-43)).
    set (a := fst (shl_align m e ez)).
    set (b := fst (shl_align 8796093 (-43) ez)).
    change (Z.pos a + Z.pos b) with (Z.pos (a + b)).
    cbn [binary_normalize]. unfold binary_round.
    pose proof (shl_align_digits (a + b) ez
                  (fexp F32.prec F32.emax (Z.pos (digits2_pos (a + b)) + ez)))
      as Hal.
    destruct (shl_align (a + b) ez _) as [mz ez'] eqn:Esh.
    cbn [fst snd] in Hal.
    assert (Hb : Z.pos (digits2_pos b) = 24 + (-43 - ez)).
    { subst b. rewrite shl_align_fst_digits by (subst ez; lia).
      reflexivity. }
    pose proof (Zdigits2_mono (Z.pos b) (Z.pos (a + b)) ltac:(lia)) as Hmono.
    cbn [Zdigits2] in Hmono.
    pose proof (binary_round_aux_positive false (Z.pos mz) ez' loc_Exact
                  ltac:(lia)) as Hpos.
    cbn [Zdigits2] in Hpos.
    specialize (Hpos ltac:(unfold emin, F32.prec, F32.emax; lia)).
    destruct (binary_round_aux _ _ _ _ _ _) as [?|s'| |s' ? ?];
      try contradiction; subst s'; reflexivity.
Qed.

(** For every element whose two components are not NaN, the value handed
    to [np.log10] is strictly positive: the [1e-6] keeps the logarithm
    away from zero for every magnitude, not only for a zero one, and the
    displayed value is 20 times the logarithm of that positive float. *)
Theorem log_argument_positive (hk : hypot_kernel)
    (log10f : F32.t -> F32.t) (c : config)
    (time_data : list (F64.t * F64.t)) (contents : list F32.t)
    (s s' : store) (cmds : list plot_cmd) :
  main hk log10f c time_data contents s = Ok (cmds, s') ->
  exists (fc : Z) (z m : view) (s1 : store) (nf nb : nat)
         (args : imshow_args),
    outsize c = Ok fc /\
    (let* data := fromfile contents in
     spectrogram hk data fc (bin_count c)) s = Ok ((z, m), s1) /\
    shape z = [nf; nb] /\ shape m = [nf; nb] /\
    In (Imshow args) cmds /\
    forall f b : nat, (f < nf)%nat -> (b < nb)%nat ->
      is_nan (re (getc s1 z [f; b])) = false ->
      is_nan (im (getc s1 z [f; b])) = false ->
      SFltb (S754_zero false) (F32.add (getf s1 m [f; b]) eps32) = true /\
      (im_data args !!! b) !!! f =
        F32.mul twenty32 (log10f (F32.add (getf s1 m [f; b]) eps32)).
Proof.
  intros Hrun.
  destruct (main_image log10f _ _ _ _ _ _ Hrun)
    as (fc & z & m & s1 & nf & nb & img & Hout & Hsp & Hz & Hm & -> & _ & _
        & Hel).
  exists fc, z, m, s1, nf, nb.
  eexists. split; [exact Hout|]. split; [exact Hsp|].
  split; [exact Hz|]. split; [exact Hm|].
  split; [unfold plot_commands; cbn [In]; do 7 right; left; reflexivity|].
  cbn [im_data]. intros f b Hf Hb Hre Him.
  destruct (Hel f b Hf Hb) as [Hmag Himg]. split; [|exact Himg].
  rewrite Hmag. unfold np_abs.
  destruct (hypotf_sign hk _ _ Hre Him) as [Hn Hs].
  apply add_eps_positive; [exact Hn | left; exact Hs].
Qed.

Lemma log_argument_positive_witness :
  exists cmds s',
    main hypot_rounded minus_six config_tiny []
         [F32.one; F32.zero; F32.of_Z2 3 0; F32.of_Z2 (-4) 0] empty_store
      = Ok (cmds, s') /\
    exists (fc : Z) (z m : view) (s1 : store) (nf nb : nat)
           (args : imshow_args),
      outsize config_tiny = Ok fc /\
      (let* data := fromfile [F32.one; F32.zero; F32.of_Z2 3 0;
                              F32.of_Z2 (-4) 0] in
       spectrogram hypot_rounded data fc (bin_count config_tiny)) empty_store
        = Ok ((z, m), s1) /\
      shape z = [nf; nb] /\ shape m = [nf; nb] /\
      In (Imshow args) cmds /\
      forall f b : nat, (f < nf)%nat -> (b < nb)%nat ->
        is_nan (re (getc s1 z [f; b])) = false ->
        is_nan (im (getc s1 z [f; b])) = false ->
        SFltb (S754_zero false) (F32.add (getf s1 m [f; b]) eps32) = true /\
        (im_data args !!! b) !!! f =
          F32.mul twenty32 (minus_six (F32.add (getf s1 m [f; b]) eps32)).
Proof.
  eexists _, _. split; [vm_compute; reflexivity|].
  eapply (log_argument_positive hypot_rounded minus_six config_tiny []
            [F32.one; F32.zero; F32.of_Z2 3 0; F32.of_Z2 (-4) 0] empty_store).
  vm_compute. reflexivity.
Defined.

(** ** Pairs that are not finite *)

(** An infinite imaginary float wipes out the real float of its pair: the
    real part of [x + 1j*y] is NaN whatever [x] is, since [0 * inf] is NaN,
    while the imaginary part is the infinity and the magnitude [+inf].  A
    NaN imaginary float makes both parts NaN.  An infinite real float
    beside a finite imaginary one stays as it is. *)
Theorem nonfinite_pairs (hk : hypot_kernel) (x y : F32.t) (sg : bool) :
  let z a b := C64.add (C64.of_real a) (C64.mul C64.j (C64.of_real b)) in
  (re (z x (S754_infinity sg)) = S754_nan /\
   im (z x (S754_infinity sg)) = S754_infinity sg /\
   np_abs hk (z x (S754_infinity sg)) = S754_infinity false) /\
  (re (z x S754_nan) = S754_nan /\ im (z x S754_nan) = S754_nan) /\
  (finite32 y ->
   re (z (S754_infinity sg) y) = S754_infinity sg /\
   SFeqb (im (z (S754_infinity sg) y)) y = true /\
   np_abs hk (z (S754_infinity sg) y) = S754_infinity false).
Proof.
  intros z. subst z. cbv beta. split; [|split].
  - destruct x as [[]|[]| |[] ? ?], sg; repeat split.
  - destruct x as [[]|[]| |[] ? ?]; repeat split.
  - intros [Hf Hv]. unfold C64.add, C64.mul, C64.of_real, C64.j, np_abs.
    cbn [re im]. rewrite (mul_one_l y Hv).
    destruct y as [[]|?| |[] m e]; try discriminate; destruct sg;
      repeat split; try reflexivity;
      apply (SFeqb_refl_finite (S754_finite _ m e)); reflexivity.
Qed.

Lemma nonfinite_pairs_witness :
  re (C64.add (C64.of_real (S754_infinity true))
              (C64.mul C64.j (C64.of_real (F32.of_Z2 3 0))))
    = S754_infinity true /\
  SFeqb (im (C64.add (C64.of_real (S754_infinity true))
                     (C64.mul C64.j (C64.of_real (F32.of_Z2 3 0)))))
        (F32.of_Z2 3 0) = true /\
  np_abs hypot_rounded (C64.add (C64.of_real (S754_infinity true))
                  (C64.mul C64.j (C64.of_real (F32.of_Z2 3 0))))
    = S754_infinity false.
Proof.
  apply (nonfinite_pairs hypot_rounded F32.one (F32.of_Z2 3 0) true).
  split; reflexivity.
Defined.

(** ** Nothing of the file is lost in decoding *)

Lemma rebuilt_injective (x1 y1 x2 y2 : F32.t) :
  plain32 x1 -> plain32 y1 -> plain32 x2 -> plain32 y2 ->
  C64.add (C64.of_real x1) (C64.mul C64.j (C64.of_real y1)) =
  C64.add (C64.of_real x2) (C64.mul C64.j (C64.of_real y2)) ->
  x1 = x2 /\ y1 = y2.
Proof.
  intros [[Hx1 _] Nx1] [[Hy1 Vy1] Ny1] [[Hx2 _] Nx2] [[Hy2 Vy2] Ny2].
  rewrite !rebuild_finite by assumption.
  rewrite !rebuilt_exact by assumption. intros [= -> ->]. split; reflexivity.
Qed.

Lemma rows_inj {A} (g h : list nat -> A) (n m n' m' : nat) :
  (0 < n)%nat ->
  rows g [n; m] = rows h [n'; m'] ->
  n = n' /\ m = m' /\
  forall f b, (f < n)%nat -> (b < m)%nat -> g [f; b] = h [f; b].
Proof.
  intros Hn Heq. unfold rows in Heq.
  assert (Hlen : n = n').
  { apply (f_equal length) in Heq.
    now rewrite !length_map, !length_seq in Heq. }
  subst n'.
  assert (Hrow : forall f, (f < n)%nat ->
            map (fun k => g [f; k]) (seq 0 m) =
            map (fun k => h [f; k]) (seq 0 m')).
  { intros f Hf. apply (f_equal (fun l => l !! f)) in Heq.
    rewrite !list_lookup_fmap, lookup_seq_lt in Heq by lia.
    cbn in Heq. now injection Heq. }
  assert (Hm : m = m').
  { pose proof (Hrow 0%nat Hn) as H0. apply (f_equal length) in H0.
    now rewrite !length_map, !length_seq in H0. }
  subst m'. split; [reflexivity|]. split; [reflexivity|].
  intros f b Hf Hb. pose proof (Hrow f Hf) as Hr.
  apply (f_equal (fun l => l !! b)) in Hr.
  rewrite !list_lookup_fmap, lookup_seq_lt in Hr by lia.
  cbn in Hr. now injection Hr.
Qed.

(** Two files of finite floats without negative zeros that decode, with
    the same frame and bin counts, to the same complex matrix are the same
    file: on such data the decoding loses nothing. *)
Theorem decode_injective (s1 s2 s1' s2' : store) (d1 d2 z1 z2 : view)
    (buf1 buf2 : list F32.t) (frame_count bin_count : Z) :
  flat_array s1 d1 buf1 -> flat_array s2 d2 buf2 ->
  Forall plain32 buf1 -> Forall plain32 buf2 ->
  decode d1 frame_count bin_count s1 = Ok (z1, s1') ->
  decode d2 frame_count bin_count s2 = Ok (z2, s2') ->
  rows (getc s1' z1) (shape z1) = rows (getc s2' z2) (shape z2) ->
  buf1 = buf2.
Proof.
  intros Hf1 Hf2 Hp1 Hp2 Hr1 Hr2 Hrows.
  destruct (decode_elements _ _ _ _ _ _ _ Hf1 Hr1)
    as (n & m & Hz1 & Hl1 & E1).
  destruct (decode_elements _ _ _ _ _ _ _ Hf2 Hr2)
    as (n' & m' & Hz2 & Hl2 & E2).
  rewrite Hz1, Hz2 in Hrows.
  destruct n as [|n].
  { destruct buf1; [|cbn in Hl1; lia].
    unfold rows in Hrows. cbn [seq map] in Hrows.
    apply (f_equal length) in Hrows.
    rewrite length_map, length_seq in Hrows. cbn in Hrows. subst n'.
    destruct buf2; [reflexivity | cbn in Hl2; lia]. }
  destruct (rows_inj _ _ (S n) m n' m' (Nat.lt_0_succ n) Hrows)
    as (<- & <- & Hel).
  apply list_eq. intros i.
  destruct (decide (i < length buf1)%nat) as [Hi|Hi].
  2:{ rewrite !lookup_ge_None_2 by lia. reflexivity. }
  assert (Hm : (0 < m)%nat) by (destruct m; lia).
  set (k := (i / 2)%nat).
  assert (Hk : (k < S n * m)%nat).
  { subst k. apply Nat.Div0.div_lt_upper_bound. lia. }
  pose proof (Nat.div_mod_eq i 2) as Hi2. fold k in Hi2.
  pose proof (Nat.mod_upper_bound i 2 ltac:(lia)) as Hmod.
  clearbody k.
  set (f := (k / m)%nat). set (b := (k mod m)%nat).
  assert (Hb : (b < m)%nat) by (apply Nat.mod_upper_bound; lia).
  assert (Hfn : (f < S n)%nat).
  { subst f. apply Nat.Div0.div_lt_upper_bound. lia. }
  assert (Hkfb : (f * m + b = k)%nat).
  { subst f b. pose proof (Nat.div_mod_eq k m). lia. }
  destruct (decoded_at_lookup buf1 k ltac:(lia))
    as (x1 & y1 & Hx1 & Hy1 & G1).
  destruct (decoded_at_lookup buf2 k ltac:(lia))
    as (x2 & y2 & Hx2 & Hy2 & G2).
  pose proof (Hel f b Hfn Hb) as Hsame.
  rewrite (E1 f b Hfn Hb), (E2 f b Hfn Hb), Hkfb, G1, G2 in Hsame.
  pose proof (Forall_lookup_1 _ _ _ _ Hp1 Hx1) as Px1.
  pose proof (Forall_lookup_1 _ _ _ _ Hp1 Hy1) as Py1.
  pose proof (Forall_lookup_1 _ _ _ _ Hp2 Hx2) as Px2.
  pose proof (Forall_lookup_1 _ _ _ _ Hp2 Hy2) as Py2.
  destruct (rebuilt_injective x1 y1 x2 y2 Px1 Py1 Px2 Py2 Hsame) as [-> ->].
  destruct (i mod 2)%nat as [|[|?]] eqn:Er; [| |lia].
  - assert (i = 2 * k)%nat as -> by lia. now rewrite Hx1, Hx2.
  - assert (i = 2 * k + 1)%nat as -> by lia. now rewrite Hy1, Hy2.
Qed.

Lemma decode_injective_witness :
  [F32.one; F32.of_Z2 3 0] = [F32.one; F32.of_Z2 3 0].
Proof.
  eapply (decode_injective
            (Store [[F32.one; F32.of_Z2 3 0]] [])
            (Store [[F32.zero]; [F32.one; F32.of_Z2 3 0]] [])
            _ _ (contiguous 0 [2%nat]) (contiguous 1 [2%nat]) _ _
            [F32.one; F32.of_Z2 3 0] [F32.one; F32.of_Z2 3 0] 1 1).
  - repeat split.
  - repeat split.
  - repeat constructor.
  - repeat constructor.
  - vm_compute. reflexivity.
  - vm_compute. reflexivity.
  - vm_compute. reflexivity.
Defined.

(** ** The signal table *)

Lemma combine_map {A B C} (g : A -> B) (h : A -> C) (l : list A) :
  combine (map g l) (map h l) = map (fun a => (g a, h a)) l.
Proof. induction l as [|a l IH]; cbn; [reflexivity | now rewrite IH]. Qed.

Lemma decibels_total (log10f : F32.t -> F32.t) (v : view) (s : store) :
  exists img s', decibels log10f v s = Ok (img, s').
Proof. unfold decibels, map_ff, bind, alloc_f, ret. eauto. Qed.

(** A signal file of a single row, or of a single column, stops the
    script: when the parameters and the STFT file are good, so that the
    script would otherwise run to the end, it raises [IndexError] at the
    subscripts of line 27; an earlier error of the parameters or of the
    reshape comes first. *)
Theorem script_needs_a_table (hk : hypot_kernel)
    (log10f : F32.t -> F32.t) (c : config)
    (table : list (list F64.t)) (contents : list F32.t) (s : store)
    (ncols : nat) :
  Forall (fun row => length row = ncols) table ->
  (length table < 2)%nat \/ (ncols < 2)%nat ->
  match main hk log10f c [] contents s with
  | Ok _ => script hk log10f c table contents s = Raise IndexError
  | Raise e => script hk log10f c table contents s = Raise e
  end.
Proof.
  intros Hrect Hsmall.
  assert (Hcols : time_columns table = Raise IndexError).
  { unfold time_columns.
    destruct Hsmall as [Hr|Hc].
    - destruct (Nat.leb_spec 2 (length table)); [lia|reflexivity].
    - destruct table as [|row table]; [reflexivity|].
      apply Forall_cons in Hrect as [Hrow _]. cbn [hd].
      destruct (Nat.leb_spec 2 (length row)); [lia|].
      now rewrite andb_false_r. }
  unfold main, script, bind, lift.
  destruct (outsize c) as [fc|e]; [|reflexivity].
  rewrite fromfile_run.
  destruct (decode _ fc (bin_count c) _) as [[z s1]|e]; [|reflexivity].
  destruct (magnitude hk z s1) as [[m s2]|e]; [|reflexivity].
  rewrite Hcols.
  destruct (decibels_total log10f (transpose m) s2) as (img & s3 & ->).
  reflexivity.
Qed.

Lemma script_needs_a_table_witness :
  match main hypot_rounded minus_six config_tiny []
             [F32.one; F32.zero; F32.zero; F32.zero] empty_store with
  | Ok _ =>
      script hypot_rounded minus_six config_tiny [[F64.of_Z 0; F64.of_Z 1]]
             [F32.one; F32.zero; F32.zero; F32.zero] empty_store
        = Raise IndexError
  | Raise e =>
      script hypot_rounded minus_six config_tiny [[F64.of_Z 0; F64.of_Z 1]]
             [F32.one; F32.zero; F32.zero; F32.zero] empty_store = Raise e
  end.
Proof.
  apply (script_needs_a_table hypot_rounded minus_six config_tiny
           [[F64.of_Z 0; F64.of_Z 1]]
           [F32.one; F32.zero; F32.zero; F32.zero] empty_store 2).
  - repeat constructor.
  - left. cbn. lia.
Defined.



(** ** When the script runs to the end *)

Lemma time_columns_table (table : list (list F64.t)) (ncols : nat) :
  Forall (fun row => length row = ncols) table ->
  (2 <= length table)%nat -> (2 <= ncols)%nat ->
  time_columns table =
  Ok (map (fun row => row !!! 0%nat) table,
      map (fun row => row !!! 1%nat) table).
Proof.
  intros Hrect Hrows Hncols. unfold time_columns.
  destruct table as [|row table]; [cbn in Hrows; lia|].
  apply Forall_cons in Hrect as [Hrow _]. cbn [hd].
  destruct (Nat.leb_spec 2 (length (row :: table))); [|lia].
  destruct (Nat.leb_spec 2 (length row)); [reflexivity|lia].
Qed.

Lemma script_with_columns (hk : hypot_kernel) (log10f : F32.t -> F32.t)
    (c : config) (table : list (list F64.t)) (contents : list F32.t)
    (s : store) (xs ys : list F64.t) :
  time_columns table = Ok (xs, ys) ->
  script hk log10f c table contents s =
  main hk log10f c (combine xs ys) contents s.
Proof.
  intros Hcols. unfold main, script, bind, lift.
  destruct (outsize c) as [fc|e]; [|reflexivity].
  rewrite fromfile_run.
  destruct (decode _ fc (bin_count c) _) as [[z s1]|e]; [|reflexivity].
  destruct (magnitude hk z s1) as [[m s2]|e]; [|reflexivity].
  rewrite Hcols. reflexivity.
Qed.

(** Given a signal table of at least two rows and two columns, and at
    least one frame and one bin, both counts within the machine word, the
    script runs to the end exactly on a file of
    [outsize * (fftsize // 2) * 2] floats: it then issues the fourteen
    plotting calls, the last of which saves [stft-plot.png], with the
    first two columns of the table as the signal and an image of one row
    per bin and one column per frame; on a file of any other length it
    raises the size mismatch and nothing is plotted or saved. *)
Theorem script_needs_exact_file (hk : hypot_kernel)
    (log10f : F32.t -> F32.t) (c : config) (table : list (list F64.t))
    (contents : list F32.t) (s : store) (fc : Z) (ncols : nat) :
  Forall (fun row => length row = ncols) table ->
  (2 <= length table)%nat -> (2 <= ncols)%nat ->
  outsize c = Ok fc ->
  1 <= fc -> 1 <= bin_count c -> intp fc -> intp (bin_count c) ->
  let time_data := map (fun row => (row !!! 0%nat, row !!! 1%nat)) table in
  (Z.of_nat (length contents) <> fc * bin_count c * 2 ->
   script hk log10f c table contents s = Raise ShapeMismatch) /\
  (Z.of_nat (length contents) = fc * bin_count c * 2 ->
   exists img s',
     script hk log10f c table contents s =
       Ok (plot_commands c time_data img, s') /\
     length (plot_commands c time_data img) = 14%nat /\
     last (plot_commands c time_data img) = Some (Savefig "stft-plot.png") /\
     length img = Z.to_nat (bin_count c) /\
     Forall (fun row => length row = Z.to_nat fc) img).
Proof.
  intros Hrect Hrows Hncols Hout Hfc Hbc _ _ time_data.
  pose proof (time_columns_table table ncols Hrect Hrows Hncols) as Hcols.
  rewrite (script_with_columns hk log10f c table contents s _ _ Hcols).
  rewrite combine_map. fold time_data.
  exact (main_on_exact_file log10f c time_data contents s fc Hout Hfc Hbc).
Qed.

Lemma script_needs_exact_file_witness :
  let table := [[F64.of_Z 0; F64.of_Z 1]; [F64.of_Z 1; F64.of_Z 2]] in
  let time_data := map (fun row => (row !!! 0%nat, row !!! 1%nat)) table in
  script hypot_rounded minus_six config_tiny table
         [F32.one; F32.zero; F32.zero] empty_store = Raise ShapeMismatch /\
  exists img s',
    script hypot_rounded minus_six config_tiny table
           [F32.one; F32.zero; F32.zero; F32.zero] empty_store =
      Ok (plot_commands config_tiny time_data img, s') /\
    length (plot_commands config_tiny time_data img) = 14%nat /\
    last (plot_commands config_tiny time_data img)
      = Some (Savefig "stft-plot.png") /\
    length img = Z.to_nat (bin_count config_tiny) /\
    Forall (fun row => length row = Z.to_nat 2) img.
Proof.
  intros table time_data. split.
  - refine (proj1 (script_needs_exact_file hypot_rounded minus_six
                     config_tiny table [F32.one; F32.zero; F32.zero]
                     empty_store 2 2 _ _ _ _ _ _ _ _) _).
    + repeat constructor.
    + cbn. lia.
    + lia.
    + vm_compute. reflexivity.
    + lia.
    + vm_compute. discriminate.
    + unfold intp. lia.
    + unfold intp. vm_compute. split; [discriminate|reflexivity].
    + vm_compute. discriminate.
  - refine (proj2 (script_needs_exact_file hypot_rounded minus_six
                     config_tiny table
                     [F32.one; F32.zero; F32.zero; F32.zero]
                     empty_store 2 2 _ _ _ _ _ _ _ _) _).
    + repeat constructor.
    + cbn. lia.
    + lia.
    + vm_compute. reflexivity.
    + lia.
    + vm_compute. discriminate.
    + unfold intp. lia.
    + unfold intp. vm_compute. split; [discriminate|reflexivity].
    + vm_compute. reflexivity.
Defined.
